(** * entmaid: Mermaid ER-diagram generation and marker splicing

    A shallow embedding of [cmd/entmaid.go]: the diagram builder
    ([generateMermaidCode] and its helpers [formatType],
    [getEdgeRelationship], [getEdgeRefName]), the output wrapper
    ([addMermaidToType]) and the document splicer
    ([insertMultiLineString]), followed by the properties proved of them.

    Go strings are byte sequences and are modelled by [string] (a list of
    8-bit [ascii]); Go [int] values (indices and lengths) by [Z]. *)

From Stdlib Require Import Ascii String ZArith Lia Bool List.
From stdpp Require Import gmap strings.
Import ListNotations.

Local Open Scope Z_scope.

(** ** Strings *)

(** The line feed written [\n] in the Go source. *)
Definition LF : string := String "010"%char EmptyString.

(** Go's [len(s)]. *)
Definition len (s : string) : Z := Z.of_nat (String.length s).

(** Concatenation of a list of strings, in order. *)
Definition concat_strings (l : list string) : string :=
  fold_right String.append EmptyString l.

(** The part of Go's package [strings] (and of the slice expressions on
    strings) that the program uses. *)
Module strings.

(** [strings.HasPrefix(s, prefix)]. *)
Fixpoint HasPrefix (s prefix : string) : bool :=
  match prefix, s with
  | EmptyString, _ => true
  | String _ _, EmptyString => false
  | String p prefix', String c s' => Ascii.eqb c p && HasPrefix s' prefix'
  end.

(** The search of [strings.Index], from the left: [i] is the index in the
    whole text of the first byte of [s]. *)
Fixpoint IndexFrom (i : Z) (s substr : string) : Z :=
  if HasPrefix s substr then i
  else match s with
       | EmptyString => -1
       | String _ s' => IndexFrom (i + 1) s' substr
       end.

(** [strings.Index(s, substr)]: the index of the first instance of
    [substr] in [s], or [-1] if there is none. *)
Definition Index (s substr : string) : Z := IndexFrom 0 s substr.

(** [strings.ReplaceAll(s, old, new)] for a non-empty [old] (the program
    only calls it with [old = "."]): the non-overlapping instances of
    [old] are replaced from left to right.  [skip] counts the bytes of an
    instance of [old] that was just replaced and are still to be dropped. *)
Fixpoint ReplaceFrom (skip : nat) (s old new : string) : string :=
  match s with
  | EmptyString => EmptyString
  | String c s' =>
      match skip with
      | S k => ReplaceFrom k s' old new
      | O =>
          if HasPrefix s old
          then new +:+ ReplaceFrom (String.length old - 1) s' old new
          else String c (ReplaceFrom 0 s' old new)
      end
  end.

Definition ReplaceAll (s old new : string) : string := ReplaceFrom 0 s old new.

(** The first [n] bytes of [s], and [s] without its first [n] bytes. *)
Fixpoint upto (n : nat) (s : string) : string :=
  match n, s with
  | S n', String c s' => String c (upto n' s')
  | _, _ => EmptyString
  end.

Fixpoint from (n : nat) (s : string) : string :=
  match n, s with
  | S n', String _ s' => from n' s'
  | _, _ => s
  end.

(** The slice expression [s[:hi]]; [None] is the run-time panic
    "slice bounds out of range" raised unless [0 <= hi <= len(s)]. *)
Definition SliceTo (s : string) (hi : Z) : option string :=
  if (0 <=? hi) && (hi <=? len s) then Some (upto (Z.to_nat hi) s) else None.

(** The slice expression [s[lo:]]; [None] unless [0 <= lo <= len(s)]. *)
Definition SliceFrom (s : string) (lo : Z) : option string :=
  if (0 <=? lo) && (lo <=? len s) then Some (from (Z.to_nat lo) s) else None.

End strings.

(** ** The schema graph (package [entgo.io/ent/entc/gen])

    Only the parts of ent's graph that the program reads are kept. *)

(** [gen.Rel]: the cardinality of an edge. *)
Inductive Rel : Type := Unk | O2O | O2M | M2O | M2M.

Definition Rel_eqb (a b : Rel) : bool :=
  match a, b with
  | Unk, Unk | O2O, O2O | O2M, O2M | M2O, M2O | M2M, M2M => true
  | _, _ => false
  end.

(** [gen.Relation]: cardinality, and for many-to-many edges the join table
    and its columns. *)
Record Relation : Type := {
  Relation_Type : Rel;
  Relation_Table : string;
  Relation_Columns : list string
}.

(** [gen.Field]; [Field_Type] is the text that [field.Type.String()]
    returns. *)
Record Field : Type := {
  Field_Name : string;
  Field_Type : string
}.

(** [gen.ForeignKey]. *)
Record ForeignKey : Type := {
  ForeignKey_Field : Field;
  ForeignKey_UserDefined : bool
}.

(** [gen.Edge].  [Edge_Type] is the name of the entity the edge points to
    ([edge.Type.Name]); [Edge_Inverse] is the name of the edge this one is
    the inverse of (empty for a forward edge); [Edge_Ref] is the
    counterpart edge, [None] for a nil pointer. *)
#[warnings="-register-all"]
Inductive Edge : Type := Build_Edge {
  Edge_Name : string;
  Edge_Type : string;
  Edge_Rel : Relation;
  Edge_Inverse : string;
  Edge_Ref : option Edge
}.

(** [gen.Type], a node of the graph.  [Type_ID] is [None] for a nil
    pointer. *)
Record Type_ : Type := {
  Type_Name : string;
  Type_ID : option Field;
  Type_HasCompositeID : bool;
  Type_Fields : list Field;
  Type_ForeignKeys : list ForeignKey;
  Type_Edges : list Edge
}.

(** [gen.Graph]. *)
Record Graph : Type := {
  Graph_Nodes : list Type_
}.

(** [Edge.M2M], [Edge.M2O], [Edge.O2M]: tests on [e.Rel.Type]. *)
Definition Edge_M2M (e : Edge) : bool := Rel_eqb (Relation_Type (Edge_Rel e)) M2M.
Definition Edge_M2O (e : Edge) : bool := Rel_eqb (Relation_Type (Edge_Rel e)) M2O.
Definition Edge_O2M (e : Edge) : bool := Rel_eqb (Relation_Type (Edge_Rel e)) O2M.

(** [Edge.IsInverse]: [e.Inverse != ""]. *)
Definition Edge_IsInverse (e : Edge) : bool :=
  negb (String.eqb (Edge_Inverse e) EmptyString).

(** [Type.HasOneFieldID]: [!t.HasCompositeID() && t.ID != nil]. *)
Definition Type_HasOneFieldID (t : Type_) : bool :=
  negb (Type_HasCompositeID t) && match Type_ID t with Some _ => true | None => false end.

(** ** Errors and the string builder *)

(** A Go [error] value, by its message. *)
Definition error : Type := string.

Inductive result (A : Type) : Type :=
| Ok (a : A)
| Err (e : error).
Arguments Ok {A} a.
Arguments Err {A} e.

Definition bind {A B : Type} (r : result A) (k : A -> result B) : result B :=
  match r with
  | Ok a => k a
  | Err e => Err e
  end.

(** A loop whose body may return early with an error. *)
Fixpoint forM {A S : Type} (body : S -> A -> result S) (l : list A) (s : S) : result S :=
  match l with
  | [] => Ok s
  | a :: l' => bind (body s a) (forM body l')
  end.

(** [strings.Builder], by its accumulated content. *)
Definition Builder : Type := string.

(** The method [WriteString] of [strings.Builder]: appends, and always returns a nil
    error. *)
Definition WriteString (b : Builder) (s : string) : Builder * option error :=
  (b +:+ s, None).

(** A call of [WriteString] whose results are discarded. *)
Definition write (b : Builder) (s : string) : Builder := fst (WriteString b s).

(** ** The diagram builder *)

(** [formatType]. *)
Definition formatType (s : string) : string :=
  if String.eqb s "time.Time" then "timestamp"
  else if String.eqb s "map[string]interface {}"
          || String.eqb s "map[string]interface{}"
          || String.eqb s "map[string]any" then "jsonb"
  else strings.ReplaceAll s "." "-".

(** [getEdgeRelationship]. *)
Definition getEdgeRelationship (edge : Edge) : string :=
  if Edge_O2M edge then "|o--o{"
  else if Edge_M2O edge then "}o--o|"
  else if Edge_M2M edge then "}o--o{"
  else "|o--o|".

(** [getEdgeRefName]. *)
Definition getEdgeRefName (ref : option Edge) : string :=
  match ref with
  | None => ""
  | Some r => "-" +:+ Edge_Name r
  end.

(** The body of the loop over [node.Fields]. *)
Definition fieldBody (b : Builder) (field : Field) : Builder :=
  write b ("  " +:+ formatType (Field_Type field) +:+ " " +:+ Field_Name field +:+ LF).

(** The body of the loop over [node.ForeignKeys]: a user-defined foreign
    key takes the [continue]. *)
Definition foreignKeyBody (b : Builder) (foreignKey : ForeignKey) : Builder :=
  if ForeignKey_UserDefined foreignKey then b
  else write b ("  " +:+ formatType (Field_Type (ForeignKey_Field foreignKey)) +:+ " "
                +:+ Field_Name (ForeignKey_Field foreignKey) +:+ " FK" +:+ LF).

(** The body of the loop over [rel.Columns]. *)
Definition columnBody (b : Builder) (column : string) : Builder :=
  write b ("  " +:+ "int" +:+ " " +:+ column +:+ " PK,FK" +:+ LF).

(** The body of the loop over [node.Edges] in the first pass: the join
    table of a many-to-many edge, written for the direction that is not
    the inverse one. *)
Definition joinTableBody (b : Builder) (edge : Edge) : Builder :=
  if Edge_M2M edge then
    if negb (Edge_IsInverse edge) then
      let rel := Edge_Rel edge in
      let b := write b (" " +:+ Relation_Table rel +:+ " {" +:+ LF) in
      let b := fold_left columnBody (Relation_Columns rel) b in
      write b (" }" +:+ LF +:+ LF)
    else b
  else b.

(** The body of the first loop over [graph.Nodes]. *)
Definition nodeBody (b : Builder) (node : Type_) : Builder :=
  let b := write b (" " +:+ Type_Name node +:+ " {" +:+ LF) in
  let b :=
    if Type_HasOneFieldID node then
      match Type_ID node with
      | Some id => write b ("  " +:+ formatType (Field_Type id) +:+ " " +:+ Field_Name id
                            +:+ " PK" +:+ LF)
      | None => b (* excluded by [HasOneFieldID] *)
      end
    else b in
  let b := fold_left fieldBody (Type_Fields node) b in
  let b := fold_left foreignKeyBody (Type_ForeignKeys node) b in
  let b := write b (" }" +:+ LF +:+ LF) in
  fold_left joinTableBody (Type_Edges node) b.

(** The body of the loop over [node.Edges] in the second pass. *)
Definition relationshipBody (node : Type_) (b : Builder) (edge : Edge) : result Builder :=
  if Edge_M2M edge then
    Ok (write b (" " +:+ Type_Name node +:+ " " +:+ "|o--o{" +:+ " "
                 +:+ Relation_Table (Edge_Rel edge) +:+ " : " +:+ Edge_Name edge
                 +:+ getEdgeRefName (Edge_Ref edge) +:+ LF))
  else if Edge_IsInverse edge then Ok b
  else
    let '(b', err) :=
      WriteString b (" " +:+ Type_Name node +:+ " " +:+ getEdgeRelationship edge +:+ " "
                     +:+ Edge_Type edge +:+ " : " +:+ Edge_Name edge
                     +:+ getEdgeRefName (Edge_Ref edge) +:+ LF) in
    match err with
    | Some err => Err ("failed to write string: " +:+ err)
    | None => Ok b'
    end.

(** The body of the second loop over [graph.Nodes]. *)
Definition relationshipsOfNode (b : Builder) (node : Type_) : result Builder :=
  forM (relationshipBody node) (Type_Edges node) b.

(** [generateMermaidCode]. *)
Definition generateMermaidCode (graph : Graph) : result string :=
  let builder := write EmptyString ("erDiagram" +:+ LF) in
  let builder := fold_left nodeBody (Graph_Nodes graph) builder in
  bind (forM relationshipsOfNode (Graph_Nodes graph) builder) (fun builder => Ok builder).

(** ** The output wrapper *)

Section OutputWrapper.

(** The declaration of [OutputType] and of its constants [Markdown] and
    [Plain] is in another file of the package; [addMermaidToType] only
    compares values of the type, so they are taken as parameters. *)
Context {OutputType : Type} `{EqDecision OutputType}.
Variables Markdown Plain : OutputType.

(** [addMermaidToType]: the [switch] tries its cases in order. *)
Definition addMermaidToType (mermaidCode : string) (outputType : OutputType) : string :=
  if decide (outputType = Markdown) then "```mermaid" +:+ LF +:+ mermaidCode +:+ LF +:+ "```"
  else if decide (outputType = Plain) then mermaidCode
  else mermaidCode.

End OutputWrapper.

(** ** The document splicer *)

(** How a call ends: it returns an error value ([None] for nil), or the
    run-time panics. *)
Inductive outcome : Type :=
| Returns (err : option error)
| Panics.

Section Splicer.

(** The storage layer: the state [FS] of the disk and the two calls of
    package [os] that the program makes.  [ReadFile] leaves the disk as it
    is; [WriteFile] gives the new state and its error value (the
    permission bits, always [0644], are left out). *)
Context {FS : Type}.
Variable ReadFile : FS -> string -> result string.
Variable WriteFile : FS -> string -> string -> FS * option error.

(** [insertMultiLineString].  The operands of the concatenation are
    evaluated from left to right, so a slice expression out of range
    panics before anything is written.  Indices are below [2^62] for any
    text that fits in memory, so the additions do not wrap. *)
Definition insertMultiLineString (fs : FS)
    (filePath multiLineString startPattern endPattern : string) : FS * outcome :=
  match ReadFile fs filePath with
  | Err err => (fs, Returns (Some err))
  | Ok fileContent =>
      let startIndex := strings.Index fileContent startPattern in
      let endIndex := strings.Index fileContent endPattern in
      if (startIndex =? -1) || (endIndex =? -1) then
        (fs, Returns (Some ("starting (" +:+ startPattern +:+ ") or ending (" +:+ endPattern
                            +:+ ") string not found in the file")))
      else
        match strings.SliceTo fileContent (startIndex + len startPattern + 1),
              strings.SliceFrom fileContent endIndex with
        | Some before, Some after =>
            let updatedContent := before +:+ multiLineString +:+ LF +:+ after in
            let '(fs', err) := WriteFile fs filePath updatedContent in
            (fs', Returns err)
        | _, _ => (fs, Panics)
        end
  end.

End Splicer.

(** An in-memory disk: a finite map from paths to contents.  Reading a
    path that is not there fails; writing always succeeds. *)
Module MemFS.

Definition ReadFile (fs : gmap string string) (path : string) : result string :=
  match fs !! path with
  | Some content => Ok content
  | None => Err ("open " +:+ path +:+ ": no such file or directory")
  end.

Definition WriteFile (fs : gmap string string) (path content : string)
    : gmap string string * option error :=
  (<[path := content]> fs, None).

End MemFS.

(** ** Notions used to state the properties *)

(** [pattern] occurs in [text]. *)
Definition occurs_in (pattern text : string) : Prop :=
  exists before after : string, text = before +:+ pattern +:+ after.

(** The first occurrence of [pattern] in [text] is at index [i]. *)
Definition first_occurrence (pattern text : string) (i : Z) : Prop :=
  exists before after : string,
    text = before +:+ pattern +:+ after
    /\ len before = i
    /\ forall before' after' : string,
         text = before' +:+ pattern +:+ after' -> i <= len before'.


(** The number of bytes of [s] equal to [c]. *)
Fixpoint count_byte (c : ascii) (s : string) : nat :=
  match s with
  | EmptyString => 0
  | String d s' => (if Ascii.eqb d c then 1 else 0) + count_byte c s'
  end.

(** [s] with every ["."] turned into ["-"], byte by byte. *)
Fixpoint dots_to_dashes (s : string) : string :=
  match s with
  | EmptyString => EmptyString
  | String c s' => String (if Ascii.eqb c "." then "-"%char else c) (dots_to_dashes s')
  end.

(** The type texts that [formatType] does not flatten. *)
Definition named_types : list string :=
  ["time.Time"; "map[string]interface {}"; "map[string]interface{}"; "map[string]any"].

(** The attribute lines of the diagram. *)
Definition idLine (node : Type_) : string :=
  if Type_HasOneFieldID node then
    match Type_ID node with
    | Some id => "  " +:+ formatType (Field_Type id) +:+ " " +:+ Field_Name id +:+ " PK" +:+ LF
    | None => ""
    end
  else "".

Definition fieldLine (field : Field) : string :=
  "  " +:+ formatType (Field_Type field) +:+ " " +:+ Field_Name field +:+ LF.

Definition foreignKeyLine (foreignKey : ForeignKey) : string :=
  "  " +:+ formatType (Field_Type (ForeignKey_Field foreignKey)) +:+ " "
  +:+ Field_Name (ForeignKey_Field foreignKey) +:+ " FK" +:+ LF.

Definition columnLine (column : string) : string :=
  "  int " +:+ column +:+ " PK,FK" +:+ LF.

(** The block of the join table named [table] with the columns [columns]. *)
Definition joinTableBlock (table : string) (columns : list string) : string :=
  " " +:+ table +:+ " {" +:+ LF +:+ concat_strings (map columnLine columns) +:+ " }" +:+ LF +:+ LF.

(** The edges for which the first pass writes a join table. *)
Definition writesJoinTable (edge : Edge) : bool :=
  Edge_M2M edge && negb (Edge_IsInverse edge).

(** The edges for which the second pass writes a relationship line. *)
Definition writesRelationship (edge : Edge) : bool :=
  Edge_M2M edge || negb (Edge_IsInverse edge).

(** The relationship line of an edge of [node]. *)
Definition relationshipLine (node : Type_) (edge : Edge) : string :=
  " " +:+ Type_Name node +:+ " "
  +:+ (if Edge_M2M edge then "|o--o{" else getEdgeRelationship edge) +:+ " "
  +:+ (if Edge_M2M edge then Relation_Table (Edge_Rel edge) else Edge_Type edge)
  +:+ " : " +:+ Edge_Name edge +:+ getEdgeRefName (Edge_Ref edge) +:+ LF.

(** All the edges of the graph, in the order of the two loops. *)
Definition allEdges (graph : Graph) : list Edge :=
  flat_map Type_Edges (Graph_Nodes graph).

(** The text of the entity block of [node] and of the join tables written
    after it. *)
Definition nodeText (node : Type_) : string :=
  (" " +:+ Type_Name node +:+ " {" +:+ LF
   +:+ idLine node
   +:+ concat_strings (map fieldLine (Type_Fields node))
   +:+ concat_strings
         (map foreignKeyLine
            (List.filter (fun fk => negb (ForeignKey_UserDefined fk)) (Type_ForeignKeys node)))
   +:+ " }" +:+ LF +:+ LF)
  +:+ concat_strings
        (map (fun e => joinTableBlock (Relation_Table (Edge_Rel e))
                         (Relation_Columns (Edge_Rel e)))
           (List.filter writesJoinTable (Type_Edges node))).

(** The relationship lines written for the edges of [node]. *)
Definition relationshipsText (node : Type_) : string :=
  concat_strings (map (relationshipLine node) (List.filter writesRelationship (Type_Edges node))).

(** The relationship lines written for the edges [edges], taken as edges
    of [node]. *)
Definition relationshipsTextOf (node : Type_) (edges : list Edge) : string :=
  concat_strings (map (relationshipLine node) (List.filter writesRelationship edges)).

(** The whole diagram: the heading, the blocks of the first pass, the
    relationship lines of the second pass. *)
Definition diagramText (graph : Graph) : string :=
  "erDiagram" +:+ LF
  +:+ concat_strings (map nodeText (Graph_Nodes graph))
  +:+ concat_strings (map relationshipsText (Graph_Nodes graph)).

(** ** A small schema, used as a concrete input

    Users and groups are linked by a many-to-many edge pair over the join
    table [user_groups]; a user has many pets, and a pet one owner. *)
Module Example.

Definition user_groups : Relation :=
  {| Relation_Type := M2M; Relation_Table := "user_groups";
     Relation_Columns := ["user_id"; "group_id"] |}.

Definition groups : Edge := Build_Edge "groups" "Group" user_groups "" None.
Definition users : Edge := Build_Edge "users" "User" user_groups "groups" (Some groups).

Definition pets : Edge :=
  Build_Edge "pets" "Pet"
    {| Relation_Type := O2M; Relation_Table := "pets"; Relation_Columns := ["user_pets"] |}
    "" None.
Definition owner : Edge :=
  Build_Edge "owner" "User"
    {| Relation_Type := M2O; Relation_Table := "pets"; Relation_Columns := ["user_pets"] |}
    "pets" (Some pets).

Definition id : Field := {| Field_Name := "id"; Field_Type := "int" |}.

Definition user_pets : ForeignKey :=
  {| ForeignKey_Field := {| Field_Name := "user_pets"; Field_Type := "int" |};
     ForeignKey_UserDefined := false |}.
Definition vet_id : ForeignKey :=
  {| ForeignKey_Field := {| Field_Name := "vet_id"; Field_Type := "uuid.UUID" |};
     ForeignKey_UserDefined := true |}.

Definition User : Type_ :=
  {| Type_Name := "User"; Type_ID := Some id; Type_HasCompositeID := false;
     Type_Fields := [ {| Field_Name := "created_at"; Field_Type := "time.Time" |} ];
     Type_ForeignKeys := [];
     Type_Edges := [groups; pets] |}.

Definition Group : Type_ :=
  {| Type_Name := "Group"; Type_ID := Some id; Type_HasCompositeID := false;
     Type_Fields := [ {| Field_Name := "name"; Field_Type := "string" |} ];
     Type_ForeignKeys := [];
     Type_Edges := [users] |}.

Definition Pet : Type_ :=
  {| Type_Name := "Pet"; Type_ID := Some id; Type_HasCompositeID := false;
     Type_Fields := [];
     Type_ForeignKeys := [user_pets; vet_id];
     Type_Edges := [owner] |}.

Definition graph : Graph := {| Graph_Nodes := [User; Group; Pet] |}.

(** The same schema with the nodes, and so the two edges of the
    many-to-many pair, listed in the other order. *)
Definition graph_reversed : Graph := {| Graph_Nodes := [Pet; Group; User] |}.

(** A disk that holds one file, [README.md]. *)
Definition disk (content : string) : gmap string string := {[ "README.md" := content ]}.

End Example.

(** ** Occurrences of a block in the diagram *)

(** The number of positions of [text] at which [pattern] occurs. *)
Fixpoint occurrences (pattern text : string) : nat :=
  (if strings.HasPrefix text pattern then 1 else 0)
  + match text with
    | EmptyString => 0
    | String _ text' => occurrences pattern text'
    end.

(** [s] holds the byte [c]. *)
Fixpoint has_byte (c : ascii) (s : string) : bool :=
  match s with
  | EmptyString => false
  | String d s' => Ascii.eqb d c || has_byte c s'
  end.

(** A text without line feed. *)
Definition one_line (s : string) : bool := negb (has_byte "010" s).

(** A name that is safe in the diagram grammar as far as the blocks are
    concerned: no space, no line feed, no opening brace. *)
Definition plain_name (s : string) : bool :=
  negb (has_byte " " s) && negb (has_byte "010" s) && negb (has_byte "{" s).

Definition plain_field (field : Field) : bool :=
  plain_name (Field_Name field) && one_line (Field_Type field).

Definition plain_edge (edge : Edge) : bool :=
  plain_name (Edge_Name edge) && plain_name (Edge_Type edge)
  && plain_name (Relation_Table (Edge_Rel edge))
  && forallb plain_name (Relation_Columns (Edge_Rel edge))
  && match Edge_Ref edge with
     | Some ref => plain_name (Edge_Name ref)
     | None => true
     end.

Definition plain_node (node : Type_) : bool :=
  plain_name (Type_Name node)
  && match Type_ID node with
     | Some id => plain_field id
     | None => true
     end
  && forallb plain_field (Type_Fields node)
  && forallb (fun fk => plain_field (ForeignKey_Field fk)) (Type_ForeignKeys node)
  && forallb plain_edge (Type_Edges node).

(** The names of the graph are identifiers of the diagram grammar, and the
    type texts hold no line feed. *)
Definition plain_graph (graph : Graph) : bool := forallb plain_node (Graph_Nodes graph).

(** The many-to-many edges of the graph over the join table [table], in
    the order of the graph. *)
Definition manyToManyOver (table : string) (graph : Graph) : list Edge :=
  List.filter (fun e => Edge_M2M e && String.eqb (Relation_Table (Edge_Rel e)) table)
    (allEdges graph).

(** The edges for which the first pass writes a join table named [table],
    and those of the graph, in order. *)
Definition writesJoinTableOf (table : string) (edge : Edge) : bool :=
  writesJoinTable edge && String.eqb (Relation_Table (Edge_Rel edge)) table.

Definition joinTablesWritten (table : string) (graph : Graph) : list Edge :=
  List.filter (writesJoinTableOf table) (allEdges graph).

(** *** The diagram as a list of lines *)

(** The text made of the lines [lines], each ended by a line feed. *)
Definition unlines (lines : list string) : string :=
  concat_strings (map (fun l => l +:+ LF) lines).

Definition joinTableLines (table : string) (columns : list string) : list string :=
  (" " +:+ table +:+ " {") :: map (fun c => "  int " +:+ c +:+ " PK,FK") columns ++ [" }"; ""].

Definition idLines (node : Type_) : list string :=
  if Type_HasOneFieldID node then
    match Type_ID node with
    | Some id => ["  " +:+ formatType (Field_Type id) +:+ " " +:+ Field_Name id +:+ " PK"]
    | None => []
    end
  else [].

Definition entityLines (node : Type_) : list string :=
  (" " +:+ Type_Name node +:+ " {")
  :: idLines node
  ++ map (fun f => "  " +:+ formatType (Field_Type f) +:+ " " +:+ Field_Name f) (Type_Fields node)
  ++ map (fun fk => "  " +:+ formatType (Field_Type (ForeignKey_Field fk)) +:+ " "
                    +:+ Field_Name (ForeignKey_Field fk) +:+ " FK")
       (List.filter (fun fk => negb (ForeignKey_UserDefined fk)) (Type_ForeignKeys node))
  ++ [" }"; ""].

Definition joinTablesLines (edges : list Edge) : list string :=
  flat_map (fun e => joinTableLines (Relation_Table (Edge_Rel e)) (Relation_Columns (Edge_Rel e)))
    (List.filter writesJoinTable edges).

Definition nodeLines (node : Type_) : list string :=
  entityLines node ++ joinTablesLines (Type_Edges node).

Definition relationshipLines (node : Type_) : list string :=
  map (fun e =>
         " " +:+ Type_Name node +:+ " "
         +:+ (if Edge_M2M e then "|o--o{" else getEdgeRelationship e) +:+ " "
         +:+ (if Edge_M2M e then Relation_Table (Edge_Rel e) else Edge_Type e)
         +:+ " : " +:+ Edge_Name e +:+ getEdgeRefName (Edge_Ref e))
    (List.filter writesRelationship (Type_Edges node)).

Definition diagramLines (graph : Graph) : list string :=
  "erDiagram" :: flat_map nodeLines (Graph_Nodes graph)
  ++ flat_map relationshipLines (Graph_Nodes graph).

(** [l] ends with [p]: some suffix of [l] is [p]. *)
Fixpoint ends_with (l p : string) : bool :=
  String.eqb l p
  || match l with
     | EmptyString => false
     | String _ l' => ends_with l' p
     end.

(** The list [lines] starts with the lines [block]. *)
Fixpoint starts_with (lines block : list string) : bool :=
  match block, lines with
  | [], _ => true
  | _ :: _, [] => false
  | p :: block', l :: lines' => String.eqb l p && starts_with lines' block'
  end.

(** The number of lines of [lines] that end with [head] and are followed
    by the lines [tail]. *)
Fixpoint count_blocks (head : string) (tail lines : list string) : nat :=
  match lines with
  | [] => 0
  | l :: lines' =>
      (if ends_with l head && starts_with lines' tail then 1 else 0)
      + count_blocks head tail lines'
  end.

(** The last byte of [s] is an opening brace. *)
Fixpoint ends_in_brace (s : string) : bool :=
  match s with
  | EmptyString => false
  | String c EmptyString => Ascii.eqb c "{"
  | String _ s' => ends_in_brace s'
  end.

(** The first line of the join-table block of [table], and the lines that
    follow it. *)
Definition blockHead (table : string) : string := " " +:+ table +:+ " {".

Definition blockTail (columns : list string) : list string :=
  map (fun c => "  int " +:+ c +:+ " PK,FK") columns ++ [" }"; ""].

(** ** The entry point *)

Section GenerateDiagram.

(** [entc.LoadGraph] belongs to ent: it loads the schema package at a path
    and may leave the disk in another state; it is taken as a parameter,
    like the storage layer and the output kinds.  The lines printed on the
    standard output are returned beside the disk. *)
Context {FS : Type} {OutputType : Type} `{EqDecision OutputType}.
Variables Markdown Plain : OutputType.
Variable LoadGraph : FS -> string -> FS * result Graph.
Variable ReadFile : FS -> string -> result string.
Variable WriteFile : FS -> string -> string -> FS * option error.

(** [GenerateDiagram]. *)
Definition GenerateDiagram (fs : FS) (schemaPath targetPath : string)
    (outputType : OutputType) (startPattern endPattern : string)
    : FS * list string * outcome :=
  let '(fs, loaded) := LoadGraph fs schemaPath in
  match loaded with
  | Err err =>
      (fs, [],
       Returns (Some ("failed to load schema graph from the path " +:+ schemaPath
                      +:+ ": " +:+ err)))
  | Ok graph =>
      match generateMermaidCode graph with
      | Err err => (fs, [], Returns (Some err))
      | Ok mermaidCode =>
          let mermaidCode := addMermaidToType Markdown Plain mermaidCode outputType in
          match insertMultiLineString ReadFile WriteFile fs targetPath mermaidCode
                  startPattern endPattern with
          | (fs, Panics) => (fs, [], Panics)
          | (fs, Returns (Some err)) =>
              (fs, [],
               Returns (Some ("failed to insert Mermaid code into the file: " +:+ err)))
          | (fs, Returns None) => (fs, ["Mermaid file generated successfully."], Returns None)
          end
      end
  end.

End GenerateDiagram.

(** ** Schemas at the edges of the data model, as concrete inputs *)

Module Cases.

(** Both directions of the pair are declared as forward edges. *)
Definition users_forward : Edge :=
  Build_Edge "users" "User" Example.user_groups "" None.

Definition Group : Type_ :=
  {| Type_Name := "Group"; Type_ID := Some Example.id; Type_HasCompositeID := false;
     Type_Fields := []; Type_ForeignKeys := []; Type_Edges := [users_forward] |}.

Definition both_forward : Graph := {| Graph_Nodes := [Example.User; Group] |}.

(** Only the inverse direction is in the graph. *)
Definition inverse_only : Graph := {| Graph_Nodes := [Example.Group] |}.

(** An entity without fields, foreign keys or edges. *)
Definition Lonely : Type_ :=
  {| Type_Name := "Lonely";
     Type_ID := Some {| Field_Name := "id"; Field_Type := "uuid.UUID" |};
     Type_HasCompositeID := false;
     Type_Fields := []; Type_ForeignKeys := []; Type_Edges := [] |}.

End Cases.

(** A disk with the target file and another file. *)
Definition two_files : gmap string string :=
  <["NOTES.md" := "keep"]> (Example.disk "A<<<START>>>Z<<<END>>>B").

(** A loader that knows one schema path, for concrete runs of the entry
    point. *)
Definition load_example (fs : gmap string string) (schemaPath : string)
    : gmap string string * result Graph :=
  if String.eqb schemaPath "./ent/schema" then (fs, Ok Example.graph)
  else (fs, Err ("stat " +:+ schemaPath +:+ ": no such file or directory")).

(** * Properties *)

(** ** Strings *)

Lemma append_cons (c : ascii) (s t : string) : String c s +:+ t = String c (s +:+ t).
Proof. reflexivity. Qed.

Lemma append_nil_l (s : string) : "" +:+ s = s.
Proof. reflexivity. Qed.

Lemma append_nil_r (s : string) : s +:+ "" = s.
Proof. induction s as [|c s IH]; [reflexivity|]. rewrite append_cons, IH. reflexivity. Qed.

Lemma append_assoc (s t u : string) : (s +:+ t) +:+ u = s +:+ (t +:+ u).
Proof.
  induction s as [|c s IH]; [reflexivity|].
  rewrite !append_cons, IH. reflexivity.
Qed.

Lemma length_append (s t : string) :
  String.length (s +:+ t) = (String.length s + String.length t)%nat.
Proof.
  induction s as [|c s IH]; [reflexivity|].
  rewrite append_cons. simpl. rewrite IH. reflexivity.
Qed.

Lemma len_app (s t : string) : len (s +:+ t) = len s + len t.
Proof. unfold len. rewrite length_append. lia. Qed.

Lemma len_nonneg (s : string) : 0 <= len s.
Proof. unfold len. lia. Qed.

Lemma HasPrefix_app (s t : string) : strings.HasPrefix (s +:+ t) s = true.
Proof.
  induction s as [|c s IH]; [destruct t; reflexivity|].
  rewrite append_cons. simpl. rewrite Ascii.eqb_refl. exact IH.
Qed.

Lemma HasPrefix_split (s p : string) :
  strings.HasPrefix s p = true -> exists t, s = p +:+ t.
Proof.
  revert s. induction p as [|c p IH]; intros s H.
  - exists s. reflexivity.
  - destruct s as [|d s]; [discriminate|]. simpl in H.
    apply andb_true_iff in H as [Hc Hp]. apply Ascii.eqb_eq in Hc. subst d.
    destruct (IH _ Hp) as [t ->]. exists t. reflexivity.
Qed.

Lemma HasPrefix_len (s p : string) : strings.HasPrefix s p = true -> len p <= len s.
Proof.
  intros H. destruct (HasPrefix_split _ _ H) as [t ->]. rewrite len_app.
  pose proof (len_nonneg t). lia.
Qed.

Lemma IndexFrom_eq (i : Z) (s substr : string) :
  strings.IndexFrom i s substr =
  if strings.HasPrefix s substr then i
  else match s with
       | EmptyString => -1
       | String _ s' => strings.IndexFrom (i + 1) s' substr
       end.
Proof. destruct s; reflexivity. Qed.

(** A pattern that [strings.Index] finds lies inside the text. *)
Lemma IndexFrom_bounds (s substr : string) (i : Z) :
  strings.IndexFrom i s substr <> -1 -> 0 <= i ->
  i <= strings.IndexFrom i s substr /\ strings.IndexFrom i s substr + len substr <= i + len s.
Proof.
  revert i. induction s as [|c s IH]; intros i; rewrite IndexFrom_eq;
    destruct (strings.HasPrefix _ substr) eqn:E; intros H Hi;
    try (apply HasPrefix_len in E; lia); try lia.
  destruct (IH (i + 1) H ltac:(lia)) as [H1 H2].
  unfold len in *. simpl String.length. lia.
Qed.

Lemma Index_bounds (s substr : string) :
  strings.Index s substr <> -1 ->
  0 <= strings.Index s substr /\ strings.Index s substr + len substr <= len s.
Proof.
  intros H. destruct (IndexFrom_bounds s substr 0 H ltac:(lia)). unfold strings.Index. lia.
Qed.

(** [strings.Index] finds the first occurrence, and answers [-1] exactly
    when there is none. *)
Lemma IndexFrom_found (s substr : string) (i : Z) :
  strings.IndexFrom i s substr <> -1 ->
  first_occurrence substr s (strings.IndexFrom i s substr - i).
Proof.
  revert i. induction s as [|c s IH]; intros i; rewrite IndexFrom_eq;
    destruct (strings.HasPrefix _ substr) eqn:E; intros H.
  - apply HasPrefix_split in E as [t Ht]. exists "", t.
    split; [exact Ht|]. split; [unfold len; simpl; lia|].
    intros before' after' _. pose proof (len_nonneg before'). lia.
  - congruence.
  - apply HasPrefix_split in E as [t Ht]. exists "", t.
    split; [exact Ht|]. split; [unfold len; simpl; lia|].
    intros before' after' _. pose proof (len_nonneg before'). lia.
  - destruct (IH (i + 1) H) as (before & after & Hs & Hlen & Hmin).
    exists (String c before), after. split; [|split].
    + rewrite append_cons, <- Hs. reflexivity.
    + unfold len in *. simpl String.length. lia.
    + intros [|c' before'] after' Hdec.
      * rewrite append_nil_l in Hdec. rewrite Hdec, HasPrefix_app in E. discriminate E.
      * rewrite append_cons in Hdec. injection Hdec as _ Hdec.
        specialize (Hmin before' after' Hdec).
        unfold len in *. simpl String.length. lia.
Qed.

Lemma IndexFrom_missing (s substr : string) (i : Z) :
  0 <= i -> strings.IndexFrom i s substr = -1 -> ~ occurs_in substr s.
Proof.
  revert i. induction s as [|c s IH]; intros i Hi; rewrite IndexFrom_eq;
    destruct (strings.HasPrefix _ substr) eqn:E; intros H; try lia;
    intros (before & after & Hdec).
  - destruct before as [|c' before]; [|discriminate Hdec].
    rewrite append_nil_l in Hdec. rewrite Hdec, HasPrefix_app in E. discriminate E.
  - destruct before as [|c' before].
    + rewrite append_nil_l in Hdec. rewrite Hdec, HasPrefix_app in E. discriminate E.
    + rewrite append_cons in Hdec. injection Hdec as _ Hdec.
      apply (IH (i + 1) ltac:(lia) H). exists before, after. exact Hdec.
Qed.

Lemma Index_missing (s substr : string) :
  strings.Index s substr = -1 <-> ~ occurs_in substr s.
Proof.
  split.
  - apply IndexFrom_missing. lia.
  - intros Hno. destruct (Z.eq_dec (strings.Index s substr) (-1)) as [E|E]; [exact E|].
    exfalso. apply Hno. destruct (IndexFrom_found s substr 0 E) as (before & after & Hs & _).
    exists before, after. exact Hs.
Qed.

Lemma Index_first (s substr : string) (i : Z) :
  first_occurrence substr s i <-> strings.Index s substr = i /\ i <> -1.
Proof.
  split.
  - intros (before & after & Hs & Hlen & Hmin).
    assert (E : strings.Index s substr <> -1).
    { intros E. apply Index_missing in E. apply E. exists before, after. exact Hs. }
    destruct (IndexFrom_found s substr 0 E) as (before2 & after2 & Hs2 & Hlen2 & Hmin2).
    specialize (Hmin before2 after2 Hs2). specialize (Hmin2 before after Hs).
    fold (strings.Index s substr) in Hlen2, Hmin2.
    pose proof (len_nonneg before). split; lia.
  - intros [E Hi]. subst i. pose proof (IndexFrom_found s substr 0 Hi) as H.
    fold (strings.Index s substr) in H. rewrite Z.sub_0_r in H. exact H.
Qed.

Lemma occurs_in_Index (s substr : string) :
  occurs_in substr s <-> strings.Index s substr <> -1.
Proof.
  split.
  - intros H E. apply Index_missing in E. contradiction.
  - intros E. destruct (IndexFrom_found s substr 0 E) as (before & after & Hs & _).
    exists before, after. exact Hs.
Qed.

(** ** The output wrapper *)

(** C9.  Whatever the diagram text, the kind [Markdown] wraps it in a
    fence tagged [mermaid] (three backquotes and the tag, a line feed, the
    text, a line feed, three backquotes); the kind [Plain], and any kind
    other than these two, gives the text back unchanged. *)
Theorem addMermaidToType_kinds {OutputType : Type} `{EqDecision OutputType}
    (Markdown Plain : OutputType) (mermaidCode : string) :
  Markdown <> Plain ->
  addMermaidToType Markdown Plain mermaidCode Markdown
    = "```mermaid" +:+ LF +:+ mermaidCode +:+ LF +:+ "```"
  /\ addMermaidToType Markdown Plain mermaidCode Plain = mermaidCode
  /\ (forall kind : OutputType, kind <> Markdown -> kind <> Plain ->
        addMermaidToType Markdown Plain mermaidCode kind = mermaidCode).
Proof.
  intros Hne. unfold addMermaidToType. repeat split.
  - destruct (decide (Markdown = Markdown)); [reflexivity | contradiction].
  - destruct (decide (Plain = Markdown)) as [E|_].
    + symmetry in E. contradiction.
    + destruct (decide (Plain = Plain)); reflexivity.
  - intros kind H1 H2.
    destruct (decide (kind = Markdown)); [contradiction|].
    destruct (decide (kind = Plain)); reflexivity.
Qed.

Lemma addMermaidToType_kinds_witness :
  ("markdown" : string) <> "plain"
  /\ addMermaidToType "markdown" "plain" ("erDiagram" +:+ LF) "markdown"
     = "```mermaid" +:+ LF +:+ ("erDiagram" +:+ LF) +:+ LF +:+ "```"
  /\ addMermaidToType "markdown" "plain" ("erDiagram" +:+ LF) "plain" = "erDiagram" +:+ LF
  /\ (forall kind : string, kind <> "markdown" -> kind <> "plain" ->
        addMermaidToType "markdown" "plain" ("erDiagram" +:+ LF) kind = "erDiagram" +:+ LF).
Proof.
  split; [discriminate|].
  apply (addMermaidToType_kinds "markdown" "plain" ("erDiagram" +:+ LF)). discriminate.
Defined.

(** ** The document splicer *)

Lemma SliceTo_in_range (s : string) (hi : Z) :
  0 <= hi <= len s -> strings.SliceTo s hi = Some (strings.upto (Z.to_nat hi) s).
Proof.
  intros [H1 H2]. unfold strings.SliceTo.
  apply Z.leb_le in H1, H2. rewrite H1, H2. reflexivity.
Qed.

Lemma SliceTo_past_end (s : string) (hi : Z) : len s < hi -> strings.SliceTo s hi = None.
Proof.
  intros H. unfold strings.SliceTo.
  apply Z.leb_gt in H. rewrite H, andb_false_r. reflexivity.
Qed.

Lemma SliceFrom_in_range (s : string) (lo : Z) :
  0 <= lo <= len s -> strings.SliceFrom s lo = Some (strings.from (Z.to_nat lo) s).
Proof.
  intros [H1 H2]. unfold strings.SliceFrom.
  apply Z.leb_le in H1, H2. rewrite H1, H2. reflexivity.
Qed.

(** The two slices [s[:n]] and [s[n:]] make up [s]. *)
Lemma upto_from (s : string) (n : nat) : strings.upto n s +:+ strings.from n s = s.
Proof.
  revert s. induction n as [|n IH]; intros s; [destruct s; reflexivity|].
  destruct s as [|c s]; [reflexivity|]. simpl. rewrite append_cons, IH. reflexivity.
Qed.

Lemma from_from (s : string) (a b : nat) :
  strings.from b (strings.from a s) = strings.from (a + b) s.
Proof.
  revert s. induction a as [|a IH]; intros s; [destruct s; reflexivity|].
  destruct s as [|c s]; [destruct b; reflexivity|]. simpl. apply IH.
Qed.

Section SplicerProperties.

Context {FS : Type}.
Variable ReadFile : FS -> string -> result string.
Variable WriteFile : FS -> string -> string -> FS * option error.

(** C8.  When the start pattern or the end pattern does not occur in the
    text of the file, the call returns the "not found" error and the
    disk is left as it was: nothing is written, whatever a write would
    have done. *)
Theorem insertMultiLineString_pattern_missing
    (fs : FS) (filePath multiLineString startPattern endPattern fileContent : string) :
  ReadFile fs filePath = Ok fileContent ->
  ~ occurs_in startPattern fileContent \/ ~ occurs_in endPattern fileContent ->
  insertMultiLineString ReadFile WriteFile fs filePath multiLineString startPattern endPattern
    = (fs, Returns (Some ("starting (" +:+ startPattern +:+ ") or ending (" +:+ endPattern
                          +:+ ") string not found in the file"))).
Proof.
  intros Hread Hmiss. unfold insertMultiLineString. rewrite Hread.
  destruct Hmiss as [H|H]; apply Index_missing in H; rewrite H; [reflexivity|].
  rewrite orb_true_r. reflexivity.
Qed.

(** C10.  When both patterns occur but the first occurrence of the start
    pattern ends the text, the slice [fileContent[:startIndex+len(startPattern)+1]]
    reaches one position past the end: the call panics and nothing is
    written.  When a character follows the start pattern the call does
    not panic. *)
Theorem insertMultiLineString_needs_following_character
    (fs : FS) (filePath multiLineString startPattern endPattern fileContent : string)
    (startIndex : Z) :
  ReadFile fs filePath = Ok fileContent ->
  first_occurrence startPattern fileContent startIndex ->
  occurs_in endPattern fileContent ->
  (startIndex + len startPattern = len fileContent ->
     strings.Index fileContent startPattern + len startPattern + 1 = len fileContent + 1
     /\ strings.SliceTo fileContent (len fileContent + 1) = None
     /\ insertMultiLineString ReadFile WriteFile fs filePath multiLineString
          startPattern endPattern = (fs, Panics))
  /\ (startIndex + len startPattern < len fileContent ->
        snd (insertMultiLineString ReadFile WriteFile fs filePath multiLineString
               startPattern endPattern) <> Panics).
Proof.
  intros Hread Hfirst He. apply Index_first in Hfirst as [Hsi Hs]. subst startIndex.
  apply occurs_in_Index in He.
  unfold insertMultiLineString. rewrite Hread.
  apply Z.eqb_neq in Hs as Hs', He as He'. rewrite Hs', He'. simpl orb. cbv iota.
  destruct (Index_bounds _ _ Hs) as [Hs0 Hs1].
  destruct (Index_bounds _ _ He) as [He0 He1].
  pose proof (len_nonneg startPattern). pose proof (len_nonneg endPattern).
  split; intros Hend.
  - split; [lia|]. rewrite !SliceTo_past_end by lia. split; reflexivity.
  - rewrite SliceTo_in_range, SliceFrom_in_range by lia.
    destruct (WriteFile _ _ _). simpl. discriminate.
Qed.

(** With both patterns found and a character after the start pattern, the
    two slices are in range and the call ends with the write. *)
Lemma insertMultiLineString_writes
    (fs : FS) (filePath multiLineString startPattern endPattern fileContent : string) :
  ReadFile fs filePath = Ok fileContent ->
  strings.Index fileContent startPattern <> -1 ->
  strings.Index fileContent endPattern <> -1 ->
  strings.Index fileContent startPattern + len startPattern + 1 <= len fileContent ->
  let updatedContent :=
    strings.upto (Z.to_nat (strings.Index fileContent startPattern + len startPattern + 1))
      fileContent
    +:+ multiLineString +:+ LF
    +:+ strings.from (Z.to_nat (strings.Index fileContent endPattern)) fileContent in
  insertMultiLineString ReadFile WriteFile fs filePath multiLineString startPattern endPattern
    = (fst (WriteFile fs filePath updatedContent),
       Returns (snd (WriteFile fs filePath updatedContent))).
Proof.
  intros Hread Hs He Hfollow.
  destruct (Index_bounds _ _ Hs) as [Hs0 Hs1].
  destruct (Index_bounds _ _ He) as [He0 He1].
  pose proof (len_nonneg startPattern). pose proof (len_nonneg endPattern).
  cbv zeta. unfold insertMultiLineString. rewrite Hread.
  apply Z.eqb_neq in Hs as Hs', He as He'. rewrite Hs', He'. simpl orb. cbv iota.
  rewrite SliceTo_in_range, SliceFrom_in_range by lia.
  destruct (WriteFile _ _ _). reflexivity.
Qed.

(** C6, under the precondition that a character follows the start
    pattern.  When both patterns occur, their first occurrences being at
    [startIndex] and [endIndex], and at least one character follows the
    first occurrence of the start pattern, the call writes back exactly:
    the text up to and including the start pattern and one more
    character, then the inserted string, then a line feed, then the text
    from [endIndex] on; it returns what the write returns.  When the
    kept prefix ends at or before [endIndex], what lies between the two
    is the part of the text that is dropped. *)
Theorem insertMultiLineString_splice
    (fs : FS) (filePath multiLineString startPattern endPattern fileContent : string)
    (startIndex endIndex : Z) :
  ReadFile fs filePath = Ok fileContent ->
  first_occurrence startPattern fileContent startIndex ->
  first_occurrence endPattern fileContent endIndex ->
  startIndex + len startPattern + 1 <= len fileContent ->
  let cut := Z.to_nat (startIndex + len startPattern + 1) in
  let before := strings.upto cut fileContent in
  let after := strings.from (Z.to_nat endIndex) fileContent in
  let updatedContent := before +:+ multiLineString +:+ LF +:+ after in
  insertMultiLineString ReadFile WriteFile fs filePath multiLineString startPattern endPattern
    = (fst (WriteFile fs filePath updatedContent),
       Returns (snd (WriteFile fs filePath updatedContent)))
  /\ (startIndex + len startPattern + 1 <= endIndex ->
        fileContent
          = before
            +:+ strings.upto (Z.to_nat endIndex - cut) (strings.from cut fileContent)
            +:+ after).
Proof.
  intros Hread Hsfirst Hefirst Hfollow.
  apply Index_first in Hsfirst as [Hsi Hs], Hefirst as [Hei He]. subst startIndex endIndex.
  cbv zeta. split.
  - apply insertMultiLineString_writes; assumption.
  - intros Hord.
    destruct (Index_bounds _ _ Hs) as [Hs0 Hs1].
    pose proof (len_nonneg startPattern).
    set (a := Z.to_nat (strings.Index fileContent startPattern + len startPattern + 1)).
    set (b := Z.to_nat (strings.Index fileContent endPattern)).
    assert (Hab : b = (a + (b - a))%nat) by (unfold a, b; lia).
    rewrite Hab at 2. rewrite <- from_from, !upto_from. reflexivity.
Qed.

End SplicerProperties.

Lemma insertMultiLineString_pattern_missing_witness :
  MemFS.ReadFile (Example.disk "# Schema") "README.md" = Ok "# Schema"
  /\ (~ occurs_in "<<<START>>>" "# Schema" \/ ~ occurs_in "<<<END>>>" "# Schema")
  /\ insertMultiLineString MemFS.ReadFile MemFS.WriteFile (Example.disk "# Schema")
       "README.md" "erDiagram" "<<<START>>>" "<<<END>>>"
     = (Example.disk "# Schema",
        Returns (Some ("starting (" +:+ "<<<START>>>" +:+ ") or ending (" +:+ "<<<END>>>"
                       +:+ ") string not found in the file"))).
Proof.
  assert (H : ~ occurs_in "<<<START>>>" "# Schema") by (apply Index_missing; reflexivity).
  split; [reflexivity|]. split; [left; exact H|].
  apply (insertMultiLineString_pattern_missing MemFS.ReadFile MemFS.WriteFile
           (Example.disk "# Schema") "README.md" "erDiagram" "<<<START>>>" "<<<END>>>"
           "# Schema").
  - reflexivity.
  - left. exact H.
Defined.

Lemma insertMultiLineString_needs_following_character_witness :
  MemFS.ReadFile (Example.disk "<<<END>>><<<START>>>") "README.md" = Ok "<<<END>>><<<START>>>"
  /\ first_occurrence "<<<START>>>" "<<<END>>><<<START>>>" 9
  /\ occurs_in "<<<END>>>" "<<<END>>><<<START>>>"
  /\ 9 + len "<<<START>>>" = len "<<<END>>><<<START>>>"
  /\ insertMultiLineString MemFS.ReadFile MemFS.WriteFile
       (Example.disk "<<<END>>><<<START>>>") "README.md" "erDiagram" "<<<START>>>" "<<<END>>>"
     = (Example.disk "<<<END>>><<<START>>>", Panics).
Proof.
  assert (Hs : first_occurrence "<<<START>>>" "<<<END>>><<<START>>>" 9).
  { apply Index_first. split; [reflexivity | discriminate]. }
  assert (He : occurs_in "<<<END>>>" "<<<END>>><<<START>>>").
  { exists "", "<<<START>>>". reflexivity. }
  split; [reflexivity|]. split; [exact Hs|]. split; [exact He|]. split; [reflexivity|].
  apply (insertMultiLineString_needs_following_character MemFS.ReadFile MemFS.WriteFile
           (Example.disk "<<<END>>><<<START>>>") "README.md" "erDiagram"
           "<<<START>>>" "<<<END>>>" "<<<END>>><<<START>>>" 9).
  - reflexivity.
  - exact Hs.
  - exact He.
  - reflexivity.
Defined.

(** C6 does not hold without that precondition: on a text that holds both
    patterns and ends with the start pattern, the call panics instead of
    writing, and the disk is as before. *)
Lemma insertMultiLineString_splice_counterexample :
  MemFS.ReadFile (Example.disk "<<<END>>><<<START>>>") "README.md" = Ok "<<<END>>><<<START>>>"
  /\ first_occurrence "<<<START>>>" "<<<END>>><<<START>>>" 9
  /\ first_occurrence "<<<END>>>" "<<<END>>><<<START>>>" 0
  /\ insertMultiLineString MemFS.ReadFile MemFS.WriteFile
       (Example.disk "<<<END>>><<<START>>>") "README.md" "erDiagram" "<<<START>>>" "<<<END>>>"
     = (Example.disk "<<<END>>><<<START>>>", Panics)
  /\ (forall content : string,
        insertMultiLineString MemFS.ReadFile MemFS.WriteFile
          (Example.disk "<<<END>>><<<START>>>") "README.md" "erDiagram"
          "<<<START>>>" "<<<END>>>"
        <> (fst (MemFS.WriteFile (Example.disk "<<<END>>><<<START>>>") "README.md" content),
            Returns
              (snd (MemFS.WriteFile (Example.disk "<<<END>>><<<START>>>") "README.md"
                      content)))).
Proof.
  split; [reflexivity|].
  split; [apply Index_first; split; [reflexivity | discriminate]|].
  split; [apply Index_first; split; [reflexivity | discriminate]|].
  split; [reflexivity|].
  intros content H. apply (f_equal snd) in H. discriminate H.
Qed.

Lemma insertMultiLineString_splice_witness :
  MemFS.ReadFile (Example.disk "# Schema <!--s-->.old<!--e--> end") "README.md"
    = Ok "# Schema <!--s-->.old<!--e--> end"
  /\ first_occurrence "<!--s-->" "# Schema <!--s-->.old<!--e--> end" 9
  /\ first_occurrence "<!--e-->" "# Schema <!--s-->.old<!--e--> end" 21
  /\ insertMultiLineString MemFS.ReadFile MemFS.WriteFile
       (Example.disk "# Schema <!--s-->.old<!--e--> end") "README.md" "erDiagram"
       "<!--s-->" "<!--e-->"
     = (Example.disk ("# Schema <!--s-->." +:+ "erDiagram" +:+ LF +:+ "<!--e--> end"),
        Returns None)
  /\ "# Schema <!--s-->.old<!--e--> end" = "# Schema <!--s-->." +:+ "old" +:+ "<!--e--> end".
Proof.
  assert (Hs : first_occurrence "<!--s-->" "# Schema <!--s-->.old<!--e--> end" 9).
  { apply Index_first. split; [reflexivity | discriminate]. }
  assert (He : first_occurrence "<!--e-->" "# Schema <!--s-->.old<!--e--> end" 21).
  { apply Index_first. split; [reflexivity | discriminate]. }
  split; [reflexivity|]. split; [exact Hs|]. split; [exact He|].
  destruct (insertMultiLineString_splice MemFS.ReadFile MemFS.WriteFile
              (Example.disk "# Schema <!--s-->.old<!--e--> end")
              "README.md" "erDiagram" "<!--s-->" "<!--e-->" "# Schema <!--s-->.old<!--e--> end"
              9 21) as [H1 H2];
    [reflexivity | exact Hs | exact He | discriminate |].
  split; [|apply H2; discriminate].
  rewrite H1. vm_compute. reflexivity.
Defined.

(** C7, with the content that the splice rule gives.  Splicing ["X"] into
    a file that holds ["A<<<START>>>Z<<<END>>>B"], with the start pattern
    ["<<<START>>>"] and the end pattern ["<<<END>>>"], writes back
    ["A<<<START>>>ZX"], a line feed, and ["<<<END>>>B"]: the one character
    kept after the start pattern is the ["Z"], and the inserted text comes
    after it. *)
Theorem insertMultiLineString_example {FS : Type}
    (ReadFile : FS -> string -> result string)
    (WriteFile : FS -> string -> string -> FS * option error)
    (fs : FS) (filePath : string) :
  ReadFile fs filePath = Ok "A<<<START>>>Z<<<END>>>B" ->
  insertMultiLineString ReadFile WriteFile fs filePath "X" "<<<START>>>" "<<<END>>>"
    = (fst (WriteFile fs filePath ("A<<<START>>>ZX" +:+ LF +:+ "<<<END>>>B")),
       Returns (snd (WriteFile fs filePath ("A<<<START>>>ZX" +:+ LF +:+ "<<<END>>>B")))).
Proof.
  intros Hread.
  apply (insertMultiLineString_writes ReadFile WriteFile fs filePath "X"
           "<<<START>>>" "<<<END>>>" "A<<<START>>>Z<<<END>>>B" Hread);
    discriminate.
Qed.

Lemma insertMultiLineString_example_witness :
  MemFS.ReadFile (Example.disk "A<<<START>>>Z<<<END>>>B") "README.md"
    = Ok "A<<<START>>>Z<<<END>>>B"
  /\ insertMultiLineString MemFS.ReadFile MemFS.WriteFile
       (Example.disk "A<<<START>>>Z<<<END>>>B") "README.md" "X" "<<<START>>>" "<<<END>>>"
     = (Example.disk ("A<<<START>>>ZX" +:+ LF +:+ "<<<END>>>B"), Returns None).
Proof.
  split; [reflexivity|].
  rewrite (insertMultiLineString_example MemFS.ReadFile MemFS.WriteFile
             (Example.disk "A<<<START>>>Z<<<END>>>B") "README.md" eq_refl).
  vm_compute. reflexivity.
Defined.

(** C7 does not hold with the content ["A<<<START>>> X"], a line feed and
    ["Z<<<END>>>B"]: the file does not end up holding it. *)
Lemma insertMultiLineString_example_counterexample :
  MemFS.ReadFile
    (fst (insertMultiLineString MemFS.ReadFile MemFS.WriteFile
            (Example.disk "A<<<START>>>Z<<<END>>>B") "README.md" "X"
            "<<<START>>>" "<<<END>>>")) "README.md"
  <> Ok ("A<<<START>>> X" +:+ LF +:+ "Z<<<END>>>B").
Proof.
  vm_compute. discriminate.
Qed.

(** ** Type formatting *)

Lemma ReplaceAll_dot (s : string) : strings.ReplaceAll s "." "-" = dots_to_dashes s.
Proof.
  unfold strings.ReplaceAll. induction s as [|c s IH]; [reflexivity|].
  cbn [strings.ReplaceFrom dots_to_dashes strings.HasPrefix String.length Nat.sub].
  replace (strings.HasPrefix s "") with true by (destruct s; reflexivity).
  rewrite andb_true_r, IH. destruct (Ascii.eqb c "."); reflexivity.
Qed.

Lemma formatType_default (s : string) :
  ~ In s named_types -> formatType s = dots_to_dashes s.
Proof.
  intros H. unfold formatType, named_types in *. simpl in H.
  destruct (String.eqb_spec s "time.Time"); [exfalso; apply H; subst; auto 6|].
  destruct (String.eqb_spec s "map[string]interface {}"); [exfalso; apply H; subst; auto 6|].
  destruct (String.eqb_spec s "map[string]interface{}"); [exfalso; apply H; subst; auto 6|].
  destruct (String.eqb_spec s "map[string]any"); [exfalso; apply H; subst; auto 6|].
  apply ReplaceAll_dot.
Qed.

Lemma dots_to_dashes_app (s t : string) :
  dots_to_dashes (s +:+ t) = dots_to_dashes s +:+ dots_to_dashes t.
Proof.
  induction s as [|c s IH]; [reflexivity|].
  rewrite append_cons. simpl. rewrite IH, append_cons. reflexivity.
Qed.

Lemma dots_to_dashes_dot_free (s : string) :
  count_byte "." s = 0%nat -> dots_to_dashes s = s.
Proof.
  induction s as [|c s IH]; [reflexivity|]. simpl.
  destruct (Ascii.eqb c "."); [discriminate|]. intros H. rewrite IH by exact H. reflexivity.
Qed.

Lemma dots_to_dashes_get (s : string) (i : nat) :
  String.get i (dots_to_dashes s)
    = option_map (fun c => if Ascii.eqb c "." then "-"%char else c) (String.get i s).
Proof.
  revert i. induction s as [|c s IH]; intros i; [reflexivity|].
  destruct i; [reflexivity|]. simpl. apply IH.
Qed.

Lemma dots_to_dashes_no_dot (s : string) : count_byte "." (dots_to_dashes s) = 0%nat.
Proof.
  induction s as [|c s IH]; [reflexivity|]. simpl. rewrite IH.
  destruct (Ascii.eqb_spec c "."); [reflexivity|].
  destruct (Ascii.eqb_spec c "."); [contradiction|reflexivity].
Qed.

Lemma dots_to_dashes_dashes (s : string) :
  count_byte "-" (dots_to_dashes s) = (count_byte "-" s + count_byte "." s)%nat.
Proof.
  induction s as [|c s IH]; [reflexivity|]. simpl. rewrite IH.
  destruct (Ascii.eqb_spec c "."); [subst c; simpl; lia|].
  destruct (Ascii.eqb c "-"); lia.
Qed.

Lemma dots_to_dashes_join (parts : list string) :
  Forall (fun p => count_byte "." p = 0%nat) parts ->
  dots_to_dashes (String.concat "." parts) = String.concat "-" parts.
Proof.
  induction 1 as [|p parts Hp Hparts IH]; [reflexivity|].
  destruct parts as [|q parts].
  - simpl. apply dots_to_dashes_dot_free. exact Hp.
  - change (String.concat "." (p :: q :: parts))
      with (p +:+ "." +:+ String.concat "." (q :: parts)).
    change (String.concat "-" (p :: q :: parts))
      with (p +:+ "-" +:+ String.concat "-" (q :: parts)).
    rewrite !dots_to_dashes_app, IH, dots_to_dashes_dot_free by exact Hp. reflexivity.
Qed.

Lemma count_byte_app (c : ascii) (s t : string) :
  count_byte c (s +:+ t) = (count_byte c s + count_byte c t)%nat.
Proof.
  induction s as [|d s IH]; [reflexivity|].
  rewrite append_cons. simpl. rewrite IH. lia.
Qed.

(** Parts that hold no [c], joined by [sep]: the [c] of the result are
    those of the separators. *)
Lemma count_byte_join (c : ascii) (sep : string) (parts : list string) :
  Forall (fun p => count_byte c p = 0%nat) parts ->
  count_byte c (String.concat sep parts) = (Nat.pred (length parts) * count_byte c sep)%nat.
Proof.
  induction 1 as [|p parts Hp Hparts IH]; [reflexivity|].
  destruct parts as [|q parts].
  - simpl. rewrite Hp. reflexivity.
  - change (String.concat sep (p :: q :: parts))
      with (p +:+ sep +:+ String.concat sep (q :: parts)).
    rewrite !count_byte_app, IH, Hp. simpl. lia.
Qed.

(** C4.  [formatType] gives ["timestamp"] for ["time.Time"] and ["jsonb"]
    for each spelling of the map-to-any type.  For any other text it
    replaces each ["."] by ["-"] and leaves the other bytes as they are, so
    that no ["."] remains and the dashes of the result are those of the
    input and one for each of its dots.  A name made of parts separated by
    [N] dots thus becomes the same parts separated by [N] dashes; when the
    parts hold no dash, these are all the dashes of the result. *)
Theorem formatType_cases (s : string) (parts : list string) :
  formatType "time.Time" = "timestamp"
  /\ formatType "map[string]interface {}" = "jsonb"
  /\ formatType "map[string]interface{}" = "jsonb"
  /\ formatType "map[string]any" = "jsonb"
  /\ (~ In s named_types ->
        (forall i : nat,
           String.get i (formatType s)
             = option_map (fun c => if Ascii.eqb c "." then "-"%char else c) (String.get i s))
        /\ String.length (formatType s) = String.length s
        /\ count_byte "." (formatType s) = 0%nat
        /\ count_byte "-" (formatType s) = (count_byte "-" s + count_byte "." s)%nat)
  /\ (Forall (fun p => count_byte "." p = 0%nat) parts ->
      ~ In (String.concat "." parts) named_types ->
        count_byte "." (String.concat "." parts) = Nat.pred (length parts)
        /\ formatType (String.concat "." parts) = String.concat "-" parts
        /\ count_byte "." (formatType (String.concat "." parts)) = 0%nat
        /\ (Forall (fun p => count_byte "-" p = 0%nat) parts ->
              count_byte "-" (formatType (String.concat "." parts))
                = Nat.pred (length parts))).
Proof.
  repeat (split; [reflexivity|]). split.
  - intros H. rewrite (formatType_default s H). repeat split.
    + apply dots_to_dashes_get.
    + clear. induction s as [|c s IH]; [reflexivity|]. simpl. rewrite IH. reflexivity.
    + apply dots_to_dashes_no_dot.
    + apply dots_to_dashes_dashes.
  - intros Hparts H. rewrite (formatType_default _ H).
    assert (Hdots : count_byte "." (String.concat "." parts) = Nat.pred (length parts)).
    { rewrite (count_byte_join "." "." parts Hparts). simpl. lia. }
    split; [exact Hdots|]. split; [apply dots_to_dashes_join; exact Hparts|].
    split; [apply dots_to_dashes_no_dot|].
    intros Hdashes. rewrite dots_to_dashes_dashes, Hdots.
    rewrite (count_byte_join "-" "." parts Hdashes). simpl. lia.
Qed.

Lemma formatType_cases_witness :
  ~ In "github.com/my-org/uuid.UUID" named_types
  /\ Forall (fun p => count_byte "." p = 0%nat) ["schema"; "pkg"; "Status"]
  /\ Forall (fun p => count_byte "-" p = 0%nat) ["schema"; "pkg"; "Status"]
  /\ ~ In (String.concat "." ["schema"; "pkg"; "Status"]) named_types
  /\ formatType "github.com/my-org/uuid.UUID" = "github-com/my-org/uuid-UUID"
  /\ count_byte "-" (formatType "github.com/my-org/uuid.UUID") = (1 + 2)%nat
  /\ formatType "schema.pkg.Status" = "schema-pkg-Status"
  /\ count_byte "-" (formatType "schema.pkg.Status") = 2%nat.
Proof.
  assert (H1 : ~ In "github.com/my-org/uuid.UUID" named_types).
  { simpl. intros [H|[H|[H|[H|[]]]]]; discriminate H. }
  assert (H2 : Forall (fun p => count_byte "." p = 0%nat) ["schema"; "pkg"; "Status"]).
  { repeat constructor. }
  assert (H3 : Forall (fun p => count_byte "-" p = 0%nat) ["schema"; "pkg"; "Status"]).
  { repeat constructor. }
  assert (H4 : ~ In (String.concat "." ["schema"; "pkg"; "Status"]) named_types).
  { simpl. intros [H|[H|[H|[H|[]]]]]; discriminate H. }
  destruct (formatType_cases "github.com/my-org/uuid.UUID" ["schema"; "pkg"; "Status"])
    as (_ & _ & _ & _ & Hs & Hp).
  destruct (Hs H1) as (_ & _ & _ & Hd). destruct (Hp H2 H4) as (_ & Hj & _ & Hn).
  split; [exact H1|]. split; [exact H2|]. split; [exact H3|]. split; [exact H4|].
  split; [reflexivity|]. split; [exact Hd|]. split; [exact Hj | exact (Hn H3)].
Defined.

(** ** The diagram builder: what each loop writes *)

Lemma write_eq (b : Builder) (s : string) : write b s = b +:+ s.
Proof. reflexivity. Qed.

Lemma concat_strings_app (l1 l2 : list string) :
  concat_strings (l1 ++ l2) = concat_strings l1 +:+ concat_strings l2.
Proof.
  induction l1 as [|s l1 IH]; [reflexivity|].
  simpl. rewrite IH, append_assoc. reflexivity.
Qed.

(** A loop that appends [line x] when [keep x] holds and otherwise goes on
    to the next element. *)
Lemma fold_left_lines {A : Type} (body : Builder -> A -> Builder)
    (keep : A -> bool) (line : A -> string) (l : list A) (b : Builder) :
  (forall b x, body b x = if keep x then b +:+ line x else b) ->
  fold_left body l b = b +:+ concat_strings (map line (List.filter keep l)).
Proof.
  intros Hbody. revert b. induction l as [|x l IH]; intros b.
  - simpl. rewrite append_nil_r. reflexivity.
  - simpl fold_left. rewrite IH, Hbody.
    change (List.filter keep (x :: l))
      with (if keep x then x :: List.filter keep l else List.filter keep l).
    destruct (keep x); [|reflexivity].
    simpl. rewrite append_assoc. reflexivity.
Qed.

Lemma filter_all {A : Type} (l : list A) : List.filter (fun _ => true) l = l.
Proof. induction l as [|x l IH]; [reflexivity|]. simpl. rewrite IH. reflexivity. Qed.

Lemma fields_loop (fields : list Field) (b : Builder) :
  fold_left fieldBody fields b = b +:+ concat_strings (map fieldLine fields).
Proof.
  rewrite (fold_left_lines fieldBody (fun _ => true) fieldLine) by reflexivity.
  rewrite filter_all. reflexivity.
Qed.

Lemma foreignKeys_loop (foreignKeys : list ForeignKey) (b : Builder) :
  fold_left foreignKeyBody foreignKeys b
    = b +:+ concat_strings
              (map foreignKeyLine
                 (List.filter (fun fk => negb (ForeignKey_UserDefined fk)) foreignKeys)).
Proof.
  apply fold_left_lines. intros b' fk. unfold foreignKeyBody.
  destruct (ForeignKey_UserDefined fk); reflexivity.
Qed.

Lemma columns_loop (columns : list string) (b : Builder) :
  fold_left columnBody columns b = b +:+ concat_strings (map columnLine columns).
Proof.
  rewrite (fold_left_lines columnBody (fun _ => true) columnLine) by reflexivity.
  rewrite filter_all. reflexivity.
Qed.

Lemma joinTables_loop (edges : list Edge) (b : Builder) :
  fold_left joinTableBody edges b
    = b +:+ concat_strings
              (map (fun e => joinTableBlock (Relation_Table (Edge_Rel e))
                               (Relation_Columns (Edge_Rel e)))
                 (List.filter writesJoinTable edges)).
Proof.
  apply fold_left_lines. intros b' e. unfold joinTableBody, writesJoinTable.
  destruct (Edge_M2M e); [|reflexivity].
  destruct (negb (Edge_IsInverse e)); [|reflexivity].
  cbv zeta. rewrite columns_loop. unfold write, WriteString, joinTableBlock. cbn [fst].
  rewrite !append_assoc. reflexivity.
Qed.

(** The text that the first pass writes for a node: its block, then the
    join tables of its edges. *)
Lemma nodeBody_text (node : Type_) (b : Builder) :
  nodeBody b node = b +:+ nodeText node.
Proof.
  unfold nodeBody, nodeText. cbv zeta.
  rewrite joinTables_loop. unfold write at 1, WriteString. cbn [fst].
  rewrite foreignKeys_loop, fields_loop.
  unfold idLine, write, WriteString.
  destruct (Type_HasOneFieldID node); [destruct (Type_ID node)|];
    cbn [fst]; rewrite ?append_nil_l, !append_assoc; reflexivity.
Qed.

Lemma relationshipBody_text (node : Type_) (b : Builder) (edge : Edge) :
  relationshipBody node b edge
    = Ok (if writesRelationship edge then b +:+ relationshipLine node edge else b).
Proof.
  unfold relationshipBody, writesRelationship, relationshipLine.
  destruct (Edge_M2M edge); [reflexivity|].
  destruct (Edge_IsInverse edge); reflexivity.
Qed.

Lemma forM_app {A S : Type} (body : S -> A -> result S) (l1 l2 : list A) (s : S) :
  forM body (l1 ++ l2) s = bind (forM body l1 s) (forM body l2).
Proof.
  revert s. induction l1 as [|a l1 IH]; intros s; [reflexivity|].
  simpl. destruct (body s a); [apply IH | reflexivity].
Qed.

Lemma relationshipsOfNode_text (node : Type_) (b : Builder) :
  relationshipsOfNode b node
    = Ok (b +:+ concat_strings
                  (map (relationshipLine node) (List.filter writesRelationship (Type_Edges node)))).
Proof.
  unfold relationshipsOfNode. generalize (Type_Edges node) as edges.
  intros edges. revert b. induction edges as [|e edges IH]; intros b.
  - simpl. rewrite append_nil_r. reflexivity.
  - simpl forM. rewrite relationshipBody_text. simpl bind. rewrite IH.
    change (List.filter writesRelationship (e :: edges))
      with (if writesRelationship e then e :: List.filter writesRelationship edges
            else List.filter writesRelationship edges).
    destruct (writesRelationship e); [|reflexivity].
    simpl. rewrite append_assoc. reflexivity.
Qed.


Lemma nodes_loop (nodes : list Type_) (b : Builder) :
  fold_left nodeBody nodes b = b +:+ concat_strings (map nodeText nodes).
Proof.
  rewrite (fold_left_lines nodeBody (fun _ => true) nodeText).
  - rewrite filter_all. reflexivity.
  - intros b' node. apply nodeBody_text.
Qed.

Lemma relationships_loop (nodes : list Type_) (b : Builder) :
  forM relationshipsOfNode nodes b
    = Ok (b +:+ concat_strings (map relationshipsText nodes)).
Proof.
  revert b. induction nodes as [|node nodes IH]; intros b.
  - simpl. rewrite append_nil_r. reflexivity.
  - simpl forM. rewrite relationshipsOfNode_text. simpl bind. rewrite IH.
    simpl. fold (relationshipsText node). rewrite append_assoc. reflexivity.
Qed.

(** [generateMermaidCode] never fails, and its result is the heading
    followed by the text of the two passes. *)
Lemma generateMermaidCode_text (graph : Graph) :
  generateMermaidCode graph = Ok (diagramText graph).
Proof.
  unfold generateMermaidCode, diagramText. cbv zeta.
  rewrite nodes_loop, relationships_loop. simpl bind.
  unfold write, WriteString. cbn [fst]. rewrite append_nil_l, !append_assoc. reflexivity.
Qed.

(** ** Foreign keys and relationship lines *)

(** C5.  In the loop over the foreign keys of a node, a user-defined
    foreign key adds nothing to the builder and any other foreign key adds
    exactly its line, two spaces, the formatted type, the field name and
    [FK]; so the block of each node in the output of [generateMermaidCode]
    holds, between the field lines and the closing line, one such line for
    each foreign key that is not user defined, in order, and nothing for
    the others. *)
Theorem foreignKey_lines (graph : Graph) (node : Type_) (b : Builder) (foreignKey : ForeignKey) :
  (ForeignKey_UserDefined foreignKey = true -> foreignKeyBody b foreignKey = b)
  /\ (ForeignKey_UserDefined foreignKey = false ->
        foreignKeyBody b foreignKey
          = b +:+ "  " +:+ formatType (Field_Type (ForeignKey_Field foreignKey)) +:+ " "
              +:+ Field_Name (ForeignKey_Field foreignKey) +:+ " FK" +:+ LF)
  /\ nodeBody b node
     = b +:+ " " +:+ Type_Name node +:+ " {" +:+ LF
         +:+ idLine node
         +:+ concat_strings (map fieldLine (Type_Fields node))
         +:+ concat_strings
               (map (fun fk => "  " +:+ formatType (Field_Type (ForeignKey_Field fk)) +:+ " "
                               +:+ Field_Name (ForeignKey_Field fk) +:+ " FK" +:+ LF)
                  (List.filter (fun fk => negb (ForeignKey_UserDefined fk))
                     (Type_ForeignKeys node)))
         +:+ " }" +:+ LF +:+ LF
         +:+ concat_strings
               (map (fun e => joinTableBlock (Relation_Table (Edge_Rel e))
                                (Relation_Columns (Edge_Rel e)))
                  (List.filter writesJoinTable (Type_Edges node)))
  /\ generateMermaidCode graph
     = Ok ("erDiagram" +:+ LF
           +:+ concat_strings (map (nodeBody "") (Graph_Nodes graph))
           +:+ concat_strings (map relationshipsText (Graph_Nodes graph))).
Proof.
  split; [|split; [|split]].
  - intros H. unfold foreignKeyBody. rewrite H. reflexivity.
  - intros H. unfold foreignKeyBody. rewrite H. reflexivity.
  - rewrite nodeBody_text. unfold nodeText, foreignKeyLine. rewrite !append_assoc. reflexivity.
  - rewrite generateMermaidCode_text. unfold diagramText.
    rewrite (map_ext (nodeBody "") nodeText); [reflexivity|].
    intros n. apply (nodeBody_text n "").
Qed.

Lemma foreignKey_lines_witness :
  ForeignKey_UserDefined Example.vet_id = true
  /\ ForeignKey_UserDefined Example.user_pets = false
  /\ foreignKeyBody " Pet {" Example.vet_id = " Pet {"
  /\ foreignKeyBody " Pet {" Example.user_pets = " Pet {" +:+ "  int user_pets FK" +:+ LF
  /\ nodeBody "" Example.Pet
     = " Pet {" +:+ LF +:+ "  int id PK" +:+ LF +:+ "  int user_pets FK" +:+ LF
       +:+ " }" +:+ LF +:+ LF.
Proof.
  split; [reflexivity|]. split; [reflexivity|].
  destruct (foreignKey_lines Example.graph Example.Pet " Pet {" Example.vet_id)
    as (Hskip & _ & _ & _).
  destruct (foreignKey_lines Example.graph Example.Pet "" Example.user_pets)
    as (_ & _ & Hnode & _).
  destruct (foreignKey_lines Example.graph Example.Pet " Pet {" Example.user_pets)
    as (_ & Hline & _ & _).
  split; [exact (Hskip eq_refl)|]. split; [exact (Hline eq_refl) | exact Hnode].
Defined.

(** ** The place of an edge in the second pass *)

Lemma relationshipsTextOf_app (node : Type_) (l1 l2 : list Edge) :
  relationshipsTextOf node (l1 ++ l2)
    = relationshipsTextOf node l1 +:+ relationshipsTextOf node l2.
Proof.
  unfold relationshipsTextOf.
  rewrite List.filter_app, List.map_app, concat_strings_app. reflexivity.
Qed.

Lemma relationshipsText_at_edge (node : Type_) (earlier later : list Edge) (edge : Edge) :
  Type_Edges node = earlier ++ edge :: later ->
  relationshipsText node
    = relationshipsTextOf node earlier
      +:+ (if writesRelationship edge then relationshipLine node edge else "")
      +:+ relationshipsTextOf node later.
Proof.
  intros He.
  change (relationshipsText node) with (relationshipsTextOf node (Type_Edges node)).
  rewrite He. change (edge :: later) with ([edge] ++ later).
  rewrite !relationshipsTextOf_app.
  assert (H1 : relationshipsTextOf node [edge]
               = if writesRelationship edge then relationshipLine node edge else "").
  { unfold relationshipsTextOf. cbn [List.filter].
    destruct (writesRelationship edge); [|reflexivity].
    change (concat_strings (map (relationshipLine node) [edge]))
      with (relationshipLine node edge +:+ "").
    apply append_nil_r. }
  rewrite H1. reflexivity.
Qed.

Lemma relationshipsOfNode_at_edge
    (node : Type_) (b : Builder) (earlier later : list Edge) (edge : Edge) :
  Type_Edges node = earlier ++ edge :: later ->
  relationshipsOfNode b node
    = Ok (b +:+ relationshipsTextOf node earlier
          +:+ (if writesRelationship edge then relationshipLine node edge else "")
          +:+ relationshipsTextOf node later).
Proof.
  intros He. rewrite relationshipsOfNode_text.
  fold (relationshipsText node). rewrite (relationshipsText_at_edge node earlier later edge He).
  reflexivity.
Qed.

Lemma generateMermaidCode_at_edge
    (graph : Graph) (before after : list Type_) (node : Type_)
    (earlier later : list Edge) (edge : Edge) :
  Graph_Nodes graph = before ++ node :: after ->
  Type_Edges node = earlier ++ edge :: later ->
  generateMermaidCode graph
    = Ok ("erDiagram" +:+ LF
          +:+ concat_strings (map (nodeBody "") (Graph_Nodes graph))
          +:+ concat_strings (map relationshipsText before)
          +:+ relationshipsTextOf node earlier
          +:+ (if writesRelationship edge then relationshipLine node edge else "")
          +:+ relationshipsTextOf node later
          +:+ concat_strings (map relationshipsText after)).
Proof.
  intros Hn He. rewrite generateMermaidCode_text. unfold diagramText.
  rewrite (map_ext (nodeBody "") nodeText) by (intros n; apply (nodeBody_text n "")).
  assert (Hr : concat_strings (map relationshipsText (Graph_Nodes graph))
               = concat_strings (map relationshipsText before)
                 +:+ relationshipsTextOf node earlier
                 +:+ (if writesRelationship edge then relationshipLine node edge else "")
                 +:+ relationshipsTextOf node later
                 +:+ concat_strings (map relationshipsText after)).
  { rewrite Hn, List.map_app, concat_strings_app.
    change (map relationshipsText (node :: after))
      with ([relationshipsText node] ++ map relationshipsText after).
    rewrite concat_strings_app.
    change (concat_strings [relationshipsText node]) with (relationshipsText node +:+ "").
    rewrite append_nil_r.
    rewrite (relationshipsText_at_edge node earlier later edge He), !append_assoc.
    reflexivity. }
  rewrite Hr. reflexivity.
Qed.

(** C2.  In the second pass a many-to-many edge, inverse or not, adds to
    the builder exactly one line: a space, the name of the node, the
    symbol [|o--o{], the name of the join table, [" : "], the name of the
    edge, then [-] and the name of the counterpart edge when there is one,
    and a line feed.  Nothing else is done for the edge: the loop goes on
    with the edges that follow.  So, for such an edge at any place among
    the edges of a node at any place among the nodes of the graph, the
    output of [generateMermaidCode] is the heading, the blocks of the
    first pass, the relationship lines of the nodes before, those of the
    earlier edges of the node, this one line, those of the later edges
    and those of the nodes after. *)
Theorem manyToMany_relationship_line
    (graph : Graph) (before after : list Type_)
    (node : Type_) (b : Builder) (edge : Edge) (earlier later : list Edge) :
  Edge_M2M edge = true ->
  let line :=
    " " +:+ Type_Name node +:+ " |o--o{ " +:+ Relation_Table (Edge_Rel edge) +:+ " : "
    +:+ Edge_Name edge
    +:+ match Edge_Ref edge with
        | Some ref => "-" +:+ Edge_Name ref
        | None => ""
        end
    +:+ LF in
  relationshipBody node b edge = Ok (b +:+ line)
  /\ forM (relationshipBody node) (earlier ++ edge :: later) b
     = bind (forM (relationshipBody node) earlier b)
         (fun b' => forM (relationshipBody node) later (b' +:+ line))
  /\ (Type_Edges node = earlier ++ edge :: later ->
        relationshipsOfNode b node
        = Ok (b +:+ relationshipsTextOf node earlier +:+ line
              +:+ relationshipsTextOf node later)
        /\ (Graph_Nodes graph = before ++ node :: after ->
              generateMermaidCode graph
              = Ok ("erDiagram" +:+ LF
                    +:+ concat_strings (map (nodeBody "") (Graph_Nodes graph))
                    +:+ concat_strings (map relationshipsText before)
                    +:+ relationshipsTextOf node earlier
                    +:+ line
                    +:+ relationshipsTextOf node later
                    +:+ concat_strings (map relationshipsText after)))).
Proof.
  intros HM line.
  assert (Hbody : forall b', relationshipBody node b' edge = Ok (b' +:+ line)).
  { intros b'. unfold relationshipBody. rewrite HM. unfold write, WriteString. cbn [fst].
    unfold line, getEdgeRefName. destruct (Edge_Ref edge); reflexivity. }
  assert (Hline : (if writesRelationship edge then relationshipLine node edge else "") = line).
  { unfold writesRelationship, relationshipLine. rewrite HM. cbn [orb].
    unfold line, getEdgeRefName. destruct (Edge_Ref edge); reflexivity. }
  split; [apply Hbody|]. split.
  - rewrite forM_app.
    destruct (forM (relationshipBody node) earlier b) as [b'|e]; [|reflexivity].
    simpl. rewrite Hbody. reflexivity.
  - intros He. split.
    + rewrite (relationshipsOfNode_at_edge node b earlier later edge He), Hline. reflexivity.
    + intros Hn.
      rewrite (generateMermaidCode_at_edge graph before after node earlier later edge Hn He).
      rewrite Hline. reflexivity.
Qed.

Lemma manyToMany_relationship_line_witness :
  Edge_M2M Example.users = true
  /\ Edge_IsInverse Example.users = true
  /\ relationshipBody Example.Group "erDiagram" Example.users
     = Ok ("erDiagram" +:+ " Group |o--o{ user_groups : users-groups" +:+ LF)
  /\ Edge_M2M Example.groups = true
  /\ Edge_IsInverse Example.groups = false
  /\ Type_Edges Example.User = [] ++ Example.groups :: [Example.pets]
  /\ Graph_Nodes Example.graph = [] ++ Example.User :: [Example.Group; Example.Pet]
  /\ relationshipsOfNode "erDiagram" Example.User
     = Ok ("erDiagram" +:+ " User |o--o{ user_groups : groups" +:+ LF
           +:+ " User |o--o{ Pet : pets" +:+ LF)
  /\ generateMermaidCode Example.graph
     = Ok ("erDiagram" +:+ LF
           +:+ " User {" +:+ LF
           +:+ "  int id PK" +:+ LF
           +:+ "  timestamp created_at" +:+ LF
           +:+ " }" +:+ LF +:+ LF
           +:+ " user_groups {" +:+ LF
           +:+ "  int user_id PK,FK" +:+ LF
           +:+ "  int group_id PK,FK" +:+ LF
           +:+ " }" +:+ LF +:+ LF
           +:+ " Group {" +:+ LF
           +:+ "  int id PK" +:+ LF
           +:+ "  string name" +:+ LF
           +:+ " }" +:+ LF +:+ LF
           +:+ " Pet {" +:+ LF
           +:+ "  int id PK" +:+ LF
           +:+ "  int user_pets FK" +:+ LF
           +:+ " }" +:+ LF +:+ LF
           +:+ " User |o--o{ user_groups : groups" +:+ LF
           +:+ " User |o--o{ Pet : pets" +:+ LF
           +:+ " Group |o--o{ user_groups : users-groups" +:+ LF).
Proof.
  split; [reflexivity|]. split; [reflexivity|].
  split; [exact (proj1 (manyToMany_relationship_line Example.graph [] []
                          Example.Group "erDiagram" Example.users [] [] eq_refl))|].
  split; [reflexivity|]. split; [reflexivity|].
  split; [reflexivity|]. split; [reflexivity|].
  destruct (manyToMany_relationship_line Example.graph [] [Example.Group; Example.Pet]
              Example.User "erDiagram" Example.groups [] [Example.pets] eq_refl)
    as (_ & _ & Hpass).
  destruct (Hpass eq_refl) as (Hnode & Hgraph).
  split; [exact Hnode | exact (Hgraph eq_refl)].
Defined.

(** C3.  In the second pass an edge that is not many-to-many adds nothing
    when it is an inverse edge; otherwise it adds exactly one line: a
    space, the name of the node, the symbol, the name of the target
    entity, [" : "], the name of the edge, the counterpart suffix and a
    line feed.  The symbol is [|o--o{] for one-to-many, [}o--o|] for
    many-to-one and [|o--o|] for anything else.  So, for such an edge at
    any place among the edges of a node at any place among the nodes of
    the graph, the output of [generateMermaidCode] is the heading, the
    blocks of the first pass, the relationship lines of the nodes before
    and of the earlier edges of the node, then this one line for a forward
    edge and nothing for an inverse edge, then the relationship lines of
    the later edges and of the nodes after. *)
Theorem other_relationship_line
    (graph : Graph) (before after : list Type_)
    (node : Type_) (b : Builder) (edge : Edge) (earlier later : list Edge) :
  Edge_M2M edge = false ->
  let symbol :=
    match Relation_Type (Edge_Rel edge) with
    | O2M => "|o--o{"
    | M2O => "}o--o|"
    | _ => "|o--o|"
    end in
  let line :=
    " " +:+ Type_Name node +:+ " " +:+ symbol +:+ " " +:+ Edge_Type edge +:+ " : "
    +:+ Edge_Name edge
    +:+ match Edge_Ref edge with
        | Some ref => "-" +:+ Edge_Name ref
        | None => ""
        end
    +:+ LF in
  (Edge_IsInverse edge = true ->
     relationshipBody node b edge = Ok b
     /\ forM (relationshipBody node) (earlier ++ edge :: later) b
        = bind (forM (relationshipBody node) earlier b) (forM (relationshipBody node) later)
     /\ (Type_Edges node = earlier ++ edge :: later ->
           relationshipsOfNode b node
           = Ok (b +:+ relationshipsTextOf node earlier +:+ relationshipsTextOf node later)
           /\ (Graph_Nodes graph = before ++ node :: after ->
                 generateMermaidCode graph
                 = Ok ("erDiagram" +:+ LF
                       +:+ concat_strings (map (nodeBody "") (Graph_Nodes graph))
                       +:+ concat_strings (map relationshipsText before)
                       +:+ relationshipsTextOf node earlier
                       +:+ relationshipsTextOf node later
                       +:+ concat_strings (map relationshipsText after)))))
  /\ (Edge_IsInverse edge = false ->
        relationshipBody node b edge = Ok (b +:+ line)
        /\ forM (relationshipBody node) (earlier ++ edge :: later) b
           = bind (forM (relationshipBody node) earlier b)
               (fun b' => forM (relationshipBody node) later (b' +:+ line))
        /\ (Type_Edges node = earlier ++ edge :: later ->
              relationshipsOfNode b node
              = Ok (b +:+ relationshipsTextOf node earlier +:+ line
                    +:+ relationshipsTextOf node later)
              /\ (Graph_Nodes graph = before ++ node :: after ->
                    generateMermaidCode graph
                    = Ok ("erDiagram" +:+ LF
                          +:+ concat_strings (map (nodeBody "") (Graph_Nodes graph))
                          +:+ concat_strings (map relationshipsText before)
                          +:+ relationshipsTextOf node earlier
                          +:+ line
                          +:+ relationshipsTextOf node later
                          +:+ concat_strings (map relationshipsText after))))).
Proof.
  intros HM symbol line. split; intros HI.
  - assert (Hbody : forall b', relationshipBody node b' edge = Ok b').
    { intros b'. unfold relationshipBody. rewrite HM, HI. reflexivity. }
    assert (Hline : (if writesRelationship edge then relationshipLine node edge else "") = "").
    { unfold writesRelationship. rewrite HM, HI. reflexivity. }
    split; [apply Hbody|]. split.
    + rewrite forM_app.
      destruct (forM (relationshipBody node) earlier b) as [b'|e]; [|reflexivity].
      simpl. rewrite Hbody. reflexivity.
    + intros He. split.
      * rewrite (relationshipsOfNode_at_edge node b earlier later edge He), Hline.
        rewrite append_nil_l. reflexivity.
      * intros Hn.
        rewrite (generateMermaidCode_at_edge graph before after node earlier later edge Hn He).
        rewrite Hline, append_nil_l. reflexivity.
  - assert (Hsymbol : getEdgeRelationship edge = symbol).
    { unfold symbol, getEdgeRelationship, Edge_O2M, Edge_M2O. unfold Edge_M2M in *.
      destruct (Relation_Type (Edge_Rel edge)); try discriminate HM; reflexivity. }
    assert (Hbody : forall b', relationshipBody node b' edge = Ok (b' +:+ line)).
    { intros b'. unfold relationshipBody. rewrite HM, HI. unfold WriteString.
      rewrite Hsymbol. unfold line, getEdgeRefName.
      destruct (Edge_Ref edge); reflexivity. }
    assert (Hline : (if writesRelationship edge then relationshipLine node edge else "") = line).
    { unfold writesRelationship, relationshipLine. rewrite HM, HI. cbn [orb negb].
      rewrite Hsymbol. unfold line, getEdgeRefName.
      destruct (Edge_Ref edge); reflexivity. }
    split; [apply Hbody|]. split.
    + rewrite forM_app.
      destruct (forM (relationshipBody node) earlier b) as [b'|e]; [|reflexivity].
      simpl. rewrite Hbody. reflexivity.
    + intros He. split.
      * rewrite (relationshipsOfNode_at_edge node b earlier later edge He), Hline.
        reflexivity.
      * intros Hn.
        rewrite (generateMermaidCode_at_edge graph before after node earlier later edge Hn He).
        rewrite Hline. reflexivity.
Qed.

Lemma other_relationship_line_witness :
  Edge_M2M Example.owner = false
  /\ Edge_IsInverse Example.owner = true
  /\ Type_Edges Example.Pet = [] ++ Example.owner :: []
  /\ Graph_Nodes Example.graph_reversed = [] ++ Example.Pet :: [Example.Group; Example.User]
  /\ relationshipBody Example.Pet "erDiagram" Example.owner = Ok "erDiagram"
  /\ relationshipsOfNode "erDiagram" Example.Pet = Ok "erDiagram"
  /\ generateMermaidCode Example.graph_reversed
     = Ok ("erDiagram" +:+ LF
           +:+ " Pet {" +:+ LF
           +:+ "  int id PK" +:+ LF
           +:+ "  int user_pets FK" +:+ LF
           +:+ " }" +:+ LF +:+ LF
           +:+ " Group {" +:+ LF
           +:+ "  int id PK" +:+ LF
           +:+ "  string name" +:+ LF
           +:+ " }" +:+ LF +:+ LF
           +:+ " User {" +:+ LF
           +:+ "  int id PK" +:+ LF
           +:+ "  timestamp created_at" +:+ LF
           +:+ " }" +:+ LF +:+ LF
           +:+ " user_groups {" +:+ LF
           +:+ "  int user_id PK,FK" +:+ LF
           +:+ "  int group_id PK,FK" +:+ LF
           +:+ " }" +:+ LF +:+ LF
           +:+ " Group |o--o{ user_groups : users-groups" +:+ LF
           +:+ " User |o--o{ user_groups : groups" +:+ LF
           +:+ " User |o--o{ Pet : pets" +:+ LF)
  /\ Edge_M2M Example.pets = false
  /\ Edge_IsInverse Example.pets = false
  /\ Type_Edges Example.User = [Example.groups] ++ Example.pets :: []
  /\ Graph_Nodes Example.graph = [] ++ Example.User :: [Example.Group; Example.Pet]
  /\ relationshipBody Example.User "erDiagram" Example.pets
     = Ok ("erDiagram" +:+ " User |o--o{ Pet : pets" +:+ LF)
  /\ relationshipsOfNode "erDiagram" Example.User
     = Ok ("erDiagram" +:+ " User |o--o{ user_groups : groups" +:+ LF
           +:+ " User |o--o{ Pet : pets" +:+ LF)
  /\ generateMermaidCode Example.graph
     = Ok ("erDiagram" +:+ LF
           +:+ " User {" +:+ LF
           +:+ "  int id PK" +:+ LF
           +:+ "  timestamp created_at" +:+ LF
           +:+ " }" +:+ LF +:+ LF
           +:+ " user_groups {" +:+ LF
           +:+ "  int user_id PK,FK" +:+ LF
           +:+ "  int group_id PK,FK" +:+ LF
           +:+ " }" +:+ LF +:+ LF
           +:+ " Group {" +:+ LF
           +:+ "  int id PK" +:+ LF
           +:+ "  string name" +:+ LF
           +:+ " }" +:+ LF +:+ LF
           +:+ " Pet {" +:+ LF
           +:+ "  int id PK" +:+ LF
           +:+ "  int user_pets FK" +:+ LF
           +:+ " }" +:+ LF +:+ LF
           +:+ " User |o--o{ user_groups : groups" +:+ LF
           +:+ " User |o--o{ Pet : pets" +:+ LF
           +:+ " Group |o--o{ user_groups : users-groups" +:+ LF).
Proof.
  destruct (other_relationship_line Example.graph_reversed [] [Example.Group; Example.User]
              Example.Pet "erDiagram" Example.owner [] [] eq_refl) as (Hinverse & _).
  destruct (Hinverse eq_refl) as (Hskip & _ & Hpass).
  destruct (Hpass eq_refl) as (Hnode & Hgraph).
  split; [reflexivity|]. split; [reflexivity|].
  split; [reflexivity|]. split; [reflexivity|].
  split; [exact Hskip|]. split; [exact Hnode|]. split; [exact (Hgraph eq_refl)|].
  destruct (other_relationship_line Example.graph [] [Example.Group; Example.Pet]
              Example.User "erDiagram" Example.pets [Example.groups] [] eq_refl)
    as (_ & Hforward).
  destruct (Hforward eq_refl) as (Hline & _ & Hpass').
  destruct (Hpass' eq_refl) as (Hnode' & Hgraph').
  split; [reflexivity|]. split; [reflexivity|].
  split; [reflexivity|]. split; [reflexivity|].
  split; [exact Hline|]. split; [exact Hnode' | exact (Hgraph' eq_refl)].
Defined.

(** ** Occurrences of a block of lines in a text made of lines *)

#[local] Arguments Ascii.eqb : simpl never.
#[local] Arguments String.eqb : simpl never.

Lemma has_byte_app (c : ascii) (s t : string) :
  has_byte c (s +:+ t) = has_byte c s || has_byte c t.
Proof.
  induction s as [|d s IH]; [reflexivity|].
  rewrite append_cons. simpl. rewrite IH, orb_assoc. reflexivity.
Qed.

Lemma one_line_app (s t : string) : one_line (s +:+ t) = one_line s && one_line t.
Proof. unfold one_line. rewrite has_byte_app, negb_orb. reflexivity. Qed.

Lemma HasPrefix_nil (s : string) : strings.HasPrefix s "" = true.
Proof. destruct s; reflexivity. Qed.

Lemma LF_cons (s : string) : LF +:+ s = String "010" s.
Proof. reflexivity. Qed.

(** Two lines of a text are compared up to their line feeds. *)
Lemma HasPrefix_line (l p rest more : string) :
  one_line l = true -> one_line p = true ->
  strings.HasPrefix (l +:+ LF +:+ rest) (p +:+ LF +:+ more)
    = String.eqb l p && strings.HasPrefix rest more.
Proof.
  revert p. induction l as [|c l IH]; intros p Hl Hp.
  - destruct p as [|d p].
    + reflexivity.
    + rewrite append_nil_l, append_cons, LF_cons. simpl.
      unfold one_line in Hp. simpl in Hp. apply negb_true_iff, orb_false_iff in Hp as [Hd _].
      rewrite Ascii.eqb_sym, Hd. reflexivity.
  - unfold one_line in Hl. simpl in Hl. apply negb_true_iff, orb_false_iff in Hl as [Hc Hl].
    destruct p as [|d p].
    + rewrite append_nil_l, append_cons, LF_cons. simpl. rewrite Hc. reflexivity.
    + rewrite !append_cons. simpl.
      unfold one_line in Hp. simpl in Hp. apply negb_true_iff, orb_false_iff in Hp as [_ Hp].
      rewrite IH; [|unfold one_line; rewrite Hl; reflexivity
                    |unfold one_line; rewrite Hp; reflexivity].
      rewrite andb_assoc. reflexivity.
Qed.

Lemma unlines_cons (l : string) (lines : list string) :
  unlines (l :: lines) = l +:+ LF +:+ unlines lines.
Proof. unfold unlines. simpl. rewrite append_assoc. reflexivity. Qed.

Lemma unlines_app (l1 l2 : list string) : unlines (l1 ++ l2) = unlines l1 +:+ unlines l2.
Proof. unfold unlines. rewrite map_app. apply concat_strings_app. Qed.

Lemma HasPrefix_unlines (lines block : list string) :
  forallb one_line lines = true -> forallb one_line block = true ->
  strings.HasPrefix (unlines lines) (unlines block) = starts_with lines block.
Proof.
  revert lines. induction block as [|p block IH]; intros lines Hl Hb.
  - change (unlines []) with "". rewrite HasPrefix_nil. destruct lines; reflexivity.
  - simpl in Hb. apply andb_true_iff in Hb as [Hp Hb].
    destruct lines as [|l lines].
    + rewrite unlines_cons. destruct p; reflexivity.
    + simpl in Hl. apply andb_true_iff in Hl as [Hl Hls].
      rewrite !unlines_cons, HasPrefix_line by assumption.
      simpl. rewrite IH by assumption. reflexivity.
Qed.

Lemma eqb_length (s t : string) : String.eqb s t = true -> String.length s = String.length t.
Proof. intros H. apply String.eqb_eq in H. subst. reflexivity. Qed.

Lemma ends_with_length (l p : string) :
  ends_with l p = true -> (String.length p <= String.length l)%nat.
Proof.
  induction l as [|c l IH]; intros H.
  - destruct p; [simpl; lia | discriminate H].
  - simpl ends_with in H. simpl String.length. apply orb_true_iff in H as [H|H].
    + apply eqb_length in H. simpl in H. lia.
    + apply IH in H. lia.
Qed.

Lemma ends_with_refl (p : string) : ends_with p p = true.
Proof. destruct p; simpl; rewrite ?String.eqb_refl, ?Ascii.eqb_refl; reflexivity. Qed.

Lemma occurrences_eq (pattern text : string) :
  occurrences pattern text
    = ((if strings.HasPrefix text pattern then 1 else 0)
       + match text with
         | EmptyString => 0
         | String _ text' => occurrences pattern text'
         end)%nat.
Proof. destruct text; reflexivity. Qed.

(** The occurrences that start inside one line: there is one if the line
    ends with the first line of the block and the rest follows. *)
Lemma occurrences_line (l p rest more : string) :
  one_line l = true -> one_line p = true ->
  occurrences (p +:+ LF +:+ more) (l +:+ LF +:+ rest)
    = ((if ends_with l p && strings.HasPrefix rest more then 1 else 0)
       + occurrences (p +:+ LF +:+ more) rest)%nat.
Proof.
  intros Hl Hp. induction l as [|c l IH].
  - rewrite occurrences_eq, HasPrefix_line by assumption.
    rewrite append_nil_l, LF_cons. simpl ends_with. rewrite orb_false_r. reflexivity.
  - assert (Hl' : one_line l = true).
    { unfold one_line in *. simpl in Hl. apply negb_true_iff, orb_false_iff in Hl as [_ Hl].
      rewrite Hl. reflexivity. }
    rewrite occurrences_eq, HasPrefix_line by assumption.
    rewrite append_cons, IH by assumption. simpl ends_with.
    destruct (String.eqb (String c l) p) eqn:E.
    + assert (El : ends_with l p = false).
      { destruct (ends_with l p) eqn:El; [|reflexivity].
        apply ends_with_length in El. apply eqb_length in E. simpl in E. lia. }
      rewrite El. simpl. lia.
    + simpl. reflexivity.
Qed.

Lemma HasPrefix_of_nil (p : string) : strings.HasPrefix "" p = true -> p = "".
Proof. destruct p; [reflexivity | discriminate]. Qed.

(** The occurrences of a block of lines in a text made of lines are the
    places where a line ends with the first line of the block and the
    following lines are the other lines of the block. *)
Lemma occurrences_unlines (head : string) (tail lines : list string) :
  one_line head = true -> forallb one_line tail = true -> forallb one_line lines = true ->
  occurrences (unlines (head :: tail)) (unlines lines) = count_blocks head tail lines.
Proof.
  intros Hh Ht. rewrite unlines_cons.
  induction lines as [|l lines IH]; intros Hl.
  - destruct head; reflexivity.
  - simpl in Hl. apply andb_true_iff in Hl as [Hl Hls].
    rewrite unlines_cons, occurrences_line, IH, HasPrefix_unlines by assumption.
    reflexivity.
Qed.

(** ** The diagram is the text of its lines *)

Lemma concat_strings_lines {A : Type} (line : A -> string) (l : list A) :
  concat_strings (map (fun x => line x +:+ LF) l) = unlines (map line l).
Proof. unfold unlines. rewrite map_map. reflexivity. Qed.

Lemma unlines_flat_map {A : Type} (f : A -> list string) (l : list A) :
  unlines (flat_map f l) = concat_strings (map (fun x => unlines (f x)) l).
Proof.
  induction l as [|x l IH]; [reflexivity|].
  simpl. rewrite unlines_app, IH. reflexivity.
Qed.

Lemma joinTableBlock_lines (table : string) (columns : list string) :
  joinTableBlock table columns = unlines (joinTableLines table columns).
Proof.
  unfold joinTableBlock, joinTableLines.
  rewrite unlines_cons, unlines_app, <- concat_strings_lines.
  unfold columnLine.
  rewrite (map_ext (fun c => ("  int " +:+ c +:+ " PK,FK") +:+ LF)
                   (fun c => "  int " +:+ c +:+ " PK,FK" +:+ LF))
    by (intros; rewrite !append_assoc; reflexivity).
  rewrite !append_assoc. reflexivity.
Qed.

Lemma idLine_lines (node : Type_) : idLine node = unlines (idLines node).
Proof.
  unfold idLine, idLines.
  destruct (Type_HasOneFieldID node); [destruct (Type_ID node)|]; try reflexivity.
  rewrite unlines_cons. change (unlines []) with "".
  rewrite append_nil_r, !append_assoc. reflexivity.
Qed.

Lemma nodeText_lines (node : Type_) : nodeText node = unlines (nodeLines node).
Proof.
  unfold nodeText, nodeLines, entityLines, joinTablesLines.
  rewrite unlines_app, unlines_cons, !unlines_app, unlines_flat_map.
  rewrite <- !concat_strings_lines, idLine_lines.
  unfold fieldLine, foreignKeyLine.
  rewrite (map_ext (fun e => unlines (joinTableLines (Relation_Table (Edge_Rel e))
                                        (Relation_Columns (Edge_Rel e))))
                   (fun e => joinTableBlock (Relation_Table (Edge_Rel e))
                               (Relation_Columns (Edge_Rel e))))
    by (intros; rewrite joinTableBlock_lines; reflexivity).
  rewrite (map_ext (fun f : Field => ("  " +:+ formatType (Field_Type f) +:+ " "
                                      +:+ Field_Name f) +:+ LF)
                   (fun f => "  " +:+ formatType (Field_Type f) +:+ " " +:+ Field_Name f +:+ LF))
    by (intros; rewrite !append_assoc; reflexivity).
  rewrite (map_ext (fun fk : ForeignKey =>
                      ("  " +:+ formatType (Field_Type (ForeignKey_Field fk)) +:+ " "
                       +:+ Field_Name (ForeignKey_Field fk) +:+ " FK") +:+ LF)
                   (fun fk => "  " +:+ formatType (Field_Type (ForeignKey_Field fk)) +:+ " "
                              +:+ Field_Name (ForeignKey_Field fk) +:+ " FK" +:+ LF))
    by (intros; rewrite !append_assoc; reflexivity).
  rewrite !append_assoc. reflexivity.
Qed.

Lemma relationshipsText_lines (node : Type_) :
  relationshipsText node = unlines (relationshipLines node).
Proof.
  unfold relationshipsText, relationshipLines. rewrite <- concat_strings_lines.
  f_equal. apply map_ext. intros e. unfold relationshipLine. rewrite !append_assoc. reflexivity.
Qed.

Lemma diagramText_lines (graph : Graph) : diagramText graph = unlines (diagramLines graph).
Proof.
  unfold diagramText, diagramLines.
  rewrite unlines_cons, unlines_app, !unlines_flat_map.
  rewrite (map_ext nodeText (fun n => unlines (nodeLines n))) by apply nodeText_lines.
  rewrite (map_ext relationshipsText (fun n => unlines (relationshipLines n)))
    by apply relationshipsText_lines.
  reflexivity.
Qed.

(** ** Lines that cannot start a join-table block *)

Lemma plain_name_one_line (s : string) : plain_name s = true -> one_line s = true.
Proof.
  unfold plain_name, one_line. intros H.
  apply andb_true_iff in H as [H _]. apply andb_true_iff in H as [_ H]. exact H.
Qed.

Lemma plain_name_no_space (s : string) : plain_name s = true -> has_byte " " s = false.
Proof.
  unfold plain_name. intros H.
  apply andb_true_iff in H as [H _]. apply andb_true_iff in H as [H _].
  apply negb_true_iff in H. exact H.
Qed.

Lemma plain_name_no_brace (s : string) : plain_name s = true -> has_byte "{" s = false.
Proof.
  unfold plain_name. intros H. apply andb_true_iff in H as [_ H].
  apply negb_true_iff in H. exact H.
Qed.

Lemma has_byte_dots_to_dashes (s : string) :
  has_byte "010" (dots_to_dashes s) = has_byte "010" s.
Proof.
  induction s as [|c s IH]; [reflexivity|]. simpl. rewrite IH.
  destruct (Ascii.eqb_spec c "."); [subst c; reflexivity | reflexivity].
Qed.

Lemma one_line_formatType (s : string) : one_line s = true -> one_line (formatType s) = true.
Proof.
  intros H. unfold formatType.
  destruct (String.eqb s "time.Time"); [reflexivity|].
  destruct (String.eqb s "map[string]interface {}" || String.eqb s "map[string]interface{}"
            || String.eqb s "map[string]any"); [reflexivity|].
  rewrite ReplaceAll_dot. unfold one_line. rewrite has_byte_dots_to_dashes. exact H.
Qed.

Lemma ends_in_brace_cons (c : ascii) (s : string) :
  s <> "" -> ends_in_brace (String c s) = ends_in_brace s.
Proof. destruct s; [congruence | reflexivity]. Qed.

Lemma ends_in_brace_app (s t : string) :
  t <> "" -> ends_in_brace (s +:+ t) = ends_in_brace t.
Proof.
  intros Ht. induction s as [|c s IH]; [reflexivity|].
  rewrite append_cons, ends_in_brace_cons; [exact IH|].
  destruct s; [exact Ht | discriminate].
Qed.

Lemma ends_in_brace_has_byte (s : string) :
  ends_in_brace s = true -> has_byte "{" s = true.
Proof.
  induction s as [|c s IH]; [discriminate|].
  destruct s as [|d s].
  - simpl. intros ->. reflexivity.
  - intros H. rewrite ends_in_brace_cons in H by discriminate.
    change (has_byte "{" (String c (String d s)))
      with (Ascii.eqb c "{" || has_byte "{" (String d s)).
    rewrite (IH H). apply orb_true_r.
Qed.

Lemma ends_in_brace_app_plain (s t : string) :
  ends_in_brace s = false -> has_byte "{" t = false -> ends_in_brace (s +:+ t) = false.
Proof.
  intros Hs Ht. destruct t as [|c t].
  - rewrite append_nil_r. exact Hs.
  - rewrite ends_in_brace_app by discriminate.
    destruct (ends_in_brace (String c t)) eqn:E; [|reflexivity].
    apply ends_in_brace_has_byte in E. congruence.
Qed.

Lemma ends_with_eq (l p : string) :
  ends_with l p
    = String.eqb l p
      || match l with
         | EmptyString => false
         | String _ l' => ends_with l' p
         end.
Proof. destruct l; reflexivity. Qed.

(** A line that ends with a non-empty [p] has the last byte of [p]. *)
Lemma ends_with_brace (l p : string) :
  p <> "" -> ends_with l p = true -> ends_in_brace l = ends_in_brace p.
Proof.
  intros Hp. induction l as [|c l IH]; rewrite ends_with_eq; intros H.
  - rewrite orb_false_r in H. apply String.eqb_eq in H. subst p. reflexivity.
  - apply orb_true_iff in H as [H|H].
    + apply String.eqb_eq in H. subst p. reflexivity.
    + rewrite ends_in_brace_cons; [apply IH; exact H|].
      intros ->. destruct p; [congruence | discriminate H].
Qed.

Section Inert.

Variable table : string.

Lemma blockHead_ends_in_brace : ends_in_brace (blockHead table) = true.
Proof.
  unfold blockHead. rewrite <- append_assoc. rewrite ends_in_brace_app by discriminate. reflexivity.
Qed.

Lemma no_brace_inert (l : string) :
  ends_in_brace l = false -> ends_with l (blockHead table) = false.
Proof.
  intros H. destruct (ends_with l (blockHead table)) eqn:E; [|reflexivity].
  apply ends_with_brace in E; [|discriminate].
  rewrite blockHead_ends_in_brace in E. congruence.
Qed.

Lemma append_inv_tail (s t u : string) : s +:+ u = t +:+ u -> s = t.
Proof.
  revert t. induction s as [|c s IH]; intros [|d t] H.
  - reflexivity.
  - apply (f_equal String.length) in H. rewrite !length_append in H. simpl in H. lia.
  - apply (f_equal String.length) in H. rewrite !length_append in H. simpl in H. lia.
  - rewrite !append_cons in H. injection H as -> H. f_equal. apply IH. exact H.
Qed.

(** The header of a block named otherwise, by a name without space. *)
Lemma other_header_inert (name : string) :
  has_byte " " name = false -> name <> table ->
  ends_with (" " +:+ name +:+ " {") (blockHead table) = false.
Proof.
  intros Hsp Hne. rewrite ends_with_eq.
  apply orb_false_iff. split.
  - apply String.eqb_neq. unfold blockHead. intros H.
    change (String " " (name +:+ " {") = String " " (table +:+ " {")) in H.
    injection H as H. apply append_inv_tail in H. contradiction.
  - change (" " +:+ name +:+ " {") with (String " " (name +:+ " {")). cbv iota.
    clear Hne. induction name as [|c name IH].
    + rewrite append_nil_l. unfold blockHead.
      destruct (ends_with " {" (" " +:+ table +:+ " {")) eqn:E; [|reflexivity].
      exfalso. rewrite ends_with_eq in E. apply orb_true_iff in E as [E|E].
      * apply eqb_length in E.
        change (" " +:+ table +:+ " {") with (String " " (table +:+ " {")) in E.
        simpl in E. rewrite length_append in E. simpl in E. lia.
      * apply ends_with_length in E.
        change (" " +:+ table +:+ " {") with (String " " (table +:+ " {")) in E.
        simpl in E. rewrite length_append in E. simpl in E. lia.
    + simpl in Hsp. apply orb_false_iff in Hsp as [Hc Hsp].
      rewrite append_cons, ends_with_eq. apply orb_false_iff. split; [|apply IH; exact Hsp].
      apply String.eqb_neq. unfold blockHead.
      change (" " +:+ table +:+ " {") with (String " " (table +:+ " {")).
      intros H. injection H as H _. subst c. discriminate Hc.
Qed.

End Inert.

Ltac ends_with_literal :=
  rewrite <- ?append_assoc; rewrite ends_in_brace_app by discriminate; reflexivity.

Lemma blockTail_inert (table : string) (columns : list string) (l : string) :
  In l (blockTail columns) -> ends_with l (blockHead table) = false.
Proof.
  unfold blockTail. intros H. apply no_brace_inert.
  apply in_app_iff in H as [H|H].
  - apply in_map_iff in H as (c & <- & _). ends_with_literal.
  - destruct H as [<-|[<-|[]]]; reflexivity.
Qed.

Lemma plain_node_parts (node : Type_) :
  plain_node node = true ->
  plain_name (Type_Name node) = true
  /\ (forall id, Type_ID node = Some id -> plain_field id = true)
  /\ (forall f, In f (Type_Fields node) -> plain_field f = true)
  /\ (forall fk, In fk (Type_ForeignKeys node) -> plain_field (ForeignKey_Field fk) = true)
  /\ (forall e, In e (Type_Edges node) -> plain_edge e = true).
Proof.
  unfold plain_node. intros H.
  apply andb_true_iff in H as [H He]. apply andb_true_iff in H as [H Hk].
  apply andb_true_iff in H as [H Hf]. apply andb_true_iff in H as [Hn Hi].
  rewrite forallb_forall in He, Hk, Hf.
  repeat split; try assumption.
  intros id E. rewrite E in Hi. exact Hi.
Qed.

Lemma plain_field_parts (f : Field) :
  plain_field f = true -> plain_name (Field_Name f) = true /\ one_line (Field_Type f) = true.
Proof. unfold plain_field. intros H. apply andb_true_iff in H. exact H. Qed.

Lemma plain_edge_parts (e : Edge) :
  plain_edge e = true ->
  plain_name (Edge_Name e) = true
  /\ plain_name (Edge_Type e) = true
  /\ plain_name (Relation_Table (Edge_Rel e)) = true
  /\ (forall c, In c (Relation_Columns (Edge_Rel e)) -> plain_name c = true)
  /\ (forall ref, Edge_Ref e = Some ref -> plain_name (Edge_Name ref) = true).
Proof.
  unfold plain_edge. intros H.
  apply andb_true_iff in H as [H Hr]. apply andb_true_iff in H as [H Hc].
  apply andb_true_iff in H as [H Ht]. apply andb_true_iff in H as [Hn Hy].
  rewrite forallb_forall in Hc.
  repeat split; try assumption.
  intros ref E. rewrite E in Hr. exact Hr.
Qed.

Lemma entityLines_inert (table : string) (node : Type_) (l : string) :
  plain_node node = true -> Type_Name node <> table ->
  In l (entityLines node) -> ends_with l (blockHead table) = false.
Proof.
  intros Hp Hne H. destruct (plain_node_parts node Hp) as (Hn & Hi & Hf & Hk & _).
  unfold entityLines in H. destruct H as [<-|H].
  { apply other_header_inert; [apply plain_name_no_space; exact Hn | exact Hne]. }
  apply no_brace_inert.
  apply in_app_iff in H as [H|H].
  { unfold idLines in H. destruct (Type_HasOneFieldID node); [|destruct H].
    destruct (Type_ID node); [|destruct H]. destruct H as [<-|[]]. ends_with_literal. }
  apply in_app_iff in H as [H|H].
  { apply in_map_iff in H as (f & <- & Hin).
    destruct (plain_field_parts f (Hf f Hin)) as [Hname _].
    rewrite <- !append_assoc. apply ends_in_brace_app_plain.
    - rewrite ends_in_brace_app by discriminate. reflexivity.
    - apply plain_name_no_brace. exact Hname. }
  apply in_app_iff in H as [H|H].
  { apply in_map_iff in H as (fk & <- & _). ends_with_literal. }
  destruct H as [<-|[<-|[]]]; reflexivity.
Qed.

Lemma relationshipLines_inert (table : string) (node : Type_) (l : string) :
  plain_node node = true ->
  In l (relationshipLines node) -> ends_with l (blockHead table) = false.
Proof.
  intros Hp H. destruct (plain_node_parts node Hp) as (_ & _ & _ & _ & He).
  unfold relationshipLines in H. apply in_map_iff in H as (e & <- & Hin).
  apply filter_In in Hin as [Hin _].
  destruct (plain_edge_parts e (He e Hin)) as (Hname & _ & _ & _ & Href).
  apply no_brace_inert. unfold getEdgeRefName.
  destruct (Edge_Ref e) as [ref|].
  - rewrite <- !append_assoc. apply ends_in_brace_app_plain.
    + rewrite ends_in_brace_app by discriminate. reflexivity.
    + apply plain_name_no_brace. apply Href. reflexivity.
  - rewrite append_nil_r, <- !append_assoc. apply ends_in_brace_app_plain.
    + rewrite ends_in_brace_app by discriminate. reflexivity.
    + apply plain_name_no_brace. exact Hname.
Qed.

(** ** Counting the blocks *)

Lemma count_blocks_inert (head : string) (tail skipped lines : list string) :
  (forall l, In l skipped -> ends_with l head = false) ->
  count_blocks head tail (skipped ++ lines) = count_blocks head tail lines.
Proof.
  induction skipped as [|l skipped IH]; intros H; [reflexivity|].
  simpl. rewrite (H l) by (left; reflexivity). simpl.
  apply IH. intros l' Hl'. apply H. right. exact Hl'.
Qed.

Lemma starts_with_app (block lines : list string) : starts_with (block ++ lines) block = true.
Proof.
  induction block as [|p block IH]; [destruct lines; reflexivity|].
  simpl. rewrite String.eqb_refl, IH. reflexivity.
Qed.

Lemma count_blocks_block (head : string) (tail lines : list string) :
  (forall l, In l tail -> ends_with l head = false) ->
  count_blocks head tail (head :: tail ++ lines) = S (count_blocks head tail lines).
Proof.
  intros H. simpl. rewrite ends_with_refl, starts_with_app. simpl.
  rewrite count_blocks_inert by exact H. reflexivity.
Qed.

Lemma joinTableLines_eq (table : string) (columns : list string) :
  joinTableLines table columns = blockHead table :: blockTail columns.
Proof. reflexivity. Qed.

Section CountJoinTables.

Variable table : string.
Variable columns : list string.

Lemma count_joinTablesLines (edges : list Edge) (lines : list string) :
  (forall e, In e edges -> plain_edge e = true) ->
  (forall e, In e edges -> writesJoinTableOf table e = true ->
     Relation_Columns (Edge_Rel e) = columns) ->
  count_blocks (blockHead table) (blockTail columns) (joinTablesLines edges ++ lines)
    = (length (List.filter (writesJoinTableOf table) edges)
       + count_blocks (blockHead table) (blockTail columns) lines)%nat.
Proof.
  induction edges as [|e edges IH]; intros Hplain Hcols; [reflexivity|].
  assert (IH' := IH (fun e' H => Hplain e' (or_intror H)) (fun e' H => Hcols e' (or_intror H))).
  clear IH. unfold joinTablesLines in *. simpl List.filter. unfold writesJoinTableOf at 1.
  destruct (writesJoinTable e) eqn:Hw; [|exact IH'].
  cbn [flat_map]. rewrite <- List.app_assoc, joinTableLines_eq.
  destruct (String.eqb_spec (Relation_Table (Edge_Rel e)) table) as [Ht|Ht].
  - rewrite Ht, (Hcols e (or_introl eq_refl)).
    + simpl andb. cbv iota. rewrite <- app_comm_cons, count_blocks_block, IH'.
      * reflexivity.
      * intros l. apply blockTail_inert.
    + unfold writesJoinTableOf. rewrite Hw, Ht, String.eqb_refl. reflexivity.
  - simpl andb. cbv iota. rewrite count_blocks_inert; [exact IH'|].
    intros l [<-|Hl].
    + destruct (plain_edge_parts e (Hplain e (or_introl eq_refl))) as (_ & _ & Hn & _).
      apply other_header_inert; [apply plain_name_no_space; exact Hn | exact Ht].
    + apply (blockTail_inert table _ l Hl).
Qed.

Lemma count_nodeLines (nodes : list Type_) (lines : list string) :
  (forall n, In n nodes -> plain_node n = true) ->
  (forall n, In n nodes -> Type_Name n <> table) ->
  (forall e, In e (flat_map Type_Edges nodes) -> writesJoinTableOf table e = true ->
     Relation_Columns (Edge_Rel e) = columns) ->
  count_blocks (blockHead table) (blockTail columns) (flat_map nodeLines nodes ++ lines)
    = (length (List.filter (writesJoinTableOf table) (flat_map Type_Edges nodes))
       + count_blocks (blockHead table) (blockTail columns) lines)%nat.
Proof.
  induction nodes as [|n nodes IH]; intros Hplain Hname Hcols; [reflexivity|].
  cbn [flat_map]. unfold nodeLines at 1.
  rewrite <- !List.app_assoc, count_blocks_inert.
  - destruct (plain_node_parts n (Hplain n (or_introl eq_refl))) as (_ & _ & _ & _ & He).
    rewrite count_joinTablesLines, IH.
    + rewrite List.filter_app, List.length_app. lia.
    + intros n' H. apply Hplain. right. exact H.
    + intros n' H. apply Hname. right. exact H.
    + intros e H. apply Hcols. apply in_app_iff. right. exact H.
    + exact He.
    + intros e H. apply Hcols. apply in_app_iff. left. exact H.
  - intros l. apply entityLines_inert.
    + apply Hplain. left. reflexivity.
    + apply Hname. left. reflexivity.
Qed.

Lemma count_diagramLines (graph : Graph) :
  plain_graph graph = true ->
  (forall n, In n (Graph_Nodes graph) -> Type_Name n <> table) ->
  (forall e, In e (allEdges graph) -> writesJoinTableOf table e = true ->
     Relation_Columns (Edge_Rel e) = columns) ->
  count_blocks (blockHead table) (blockTail columns) (diagramLines graph)
    = length (joinTablesWritten table graph).
Proof.
  intros Hplain Hname Hcols. unfold plain_graph in Hplain. rewrite forallb_forall in Hplain.
  unfold diagramLines.
  change ("erDiagram" :: ?l) with (["erDiagram"] ++ l).
  rewrite (count_blocks_inert _ _ ["erDiagram"]).
  - rewrite count_nodeLines by assumption.
    rewrite <- (List.app_nil_r (flat_map relationshipLines (Graph_Nodes graph))).
    rewrite count_blocks_inert.
    + simpl. unfold joinTablesWritten, allEdges. lia.
    + intros l H. apply in_flat_map in H as (n & Hn & Hl).
      apply (relationshipLines_inert table n l (Hplain n Hn) Hl).
  - intros l [<-|[]]. apply no_brace_inert. reflexivity.
Qed.

End CountJoinTables.

(** ** Every line of the diagram is one line *)

Ltac one_line_parts :=
  rewrite ?one_line_app; repeat (apply andb_true_intro; split);
  try reflexivity; try assumption;
  try (apply one_line_formatType; assumption);
  try (apply plain_name_one_line; assumption).

Lemma joinTableLines_one_line (table : string) (columns : list string) (l : string) :
  plain_name table = true -> (forall c, In c columns -> plain_name c = true) ->
  In l (joinTableLines table columns) -> one_line l = true.
Proof.
  intros Ht Hc [<-|H].
  - one_line_parts.
  - apply in_app_iff in H as [H|H].
    + apply in_map_iff in H as (c & <- & Hin). specialize (Hc c Hin). one_line_parts.
    + destruct H as [<-|[<-|[]]]; reflexivity.
Qed.

Lemma entityLines_one_line (node : Type_) (l : string) :
  plain_node node = true -> In l (entityLines node) -> one_line l = true.
Proof.
  intros Hp H. destruct (plain_node_parts node Hp) as (Hn & Hi & Hf & Hk & _).
  unfold entityLines in H. destruct H as [<-|H]; [one_line_parts|].
  apply in_app_iff in H as [H|H].
  { unfold idLines in H. destruct (Type_HasOneFieldID node); [|destruct H].
    destruct (Type_ID node) as [id|] eqn:E; [|destruct H]. destruct H as [<-|[]].
    destruct (plain_field_parts id (Hi id eq_refl)) as [Hname Htype]. one_line_parts. }
  apply in_app_iff in H as [H|H].
  { apply in_map_iff in H as (f & <- & Hin).
    destruct (plain_field_parts f (Hf f Hin)) as [Hname Htype]. one_line_parts. }
  apply in_app_iff in H as [H|H].
  { apply in_map_iff in H as (fk & <- & Hin). apply filter_In in Hin as [Hin _].
    destruct (plain_field_parts _ (Hk fk Hin)) as [Hname Htype]. one_line_parts. }
  destruct H as [<-|[<-|[]]]; reflexivity.
Qed.

Lemma nodeLines_one_line (node : Type_) (l : string) :
  plain_node node = true -> In l (nodeLines node) -> one_line l = true.
Proof.
  intros Hp H. unfold nodeLines in H. apply in_app_iff in H as [H|H].
  - apply (entityLines_one_line node l Hp H).
  - destruct (plain_node_parts node Hp) as (_ & _ & _ & _ & He).
    unfold joinTablesLines in H. apply in_flat_map in H as (e & Hin & Hl).
    apply filter_In in Hin as [Hin _].
    destruct (plain_edge_parts e (He e Hin)) as (_ & _ & Ht & Hc & _).
    apply (joinTableLines_one_line _ _ l Ht Hc Hl).
Qed.

Lemma relationshipLines_one_line (node : Type_) (l : string) :
  plain_node node = true -> In l (relationshipLines node) -> one_line l = true.
Proof.
  intros Hp H. destruct (plain_node_parts node Hp) as (Hn & _ & _ & _ & He).
  unfold relationshipLines in H. apply in_map_iff in H as (e & <- & Hin).
  apply filter_In in Hin as [Hin _].
  destruct (plain_edge_parts e (He e Hin)) as (Hname & Htype & Htable & _ & Href).
  assert (Hsym : one_line (if Edge_M2M e then "|o--o{" else getEdgeRelationship e) = true).
  { unfold getEdgeRelationship.
    destruct (Edge_M2M e), (Edge_O2M e), (Edge_M2O e); reflexivity. }
  assert (Htarget : one_line (if Edge_M2M e then Relation_Table (Edge_Rel e) else Edge_Type e)
                    = true).
  { destruct (Edge_M2M e); apply plain_name_one_line; assumption. }
  assert (Hsuffix : one_line (getEdgeRefName (Edge_Ref e)) = true).
  { unfold getEdgeRefName. destruct (Edge_Ref e) as [ref|]; [|reflexivity].
    specialize (Href ref eq_refl). one_line_parts. }
  one_line_parts.
Qed.

Lemma diagramLines_one_line (graph : Graph) :
  plain_graph graph = true -> forallb one_line (diagramLines graph) = true.
Proof.
  intros Hplain. unfold plain_graph in Hplain. rewrite forallb_forall in Hplain.
  apply forallb_forall. intros l [<-|H]; [reflexivity|].
  apply in_app_iff in H as [H|H]; apply in_flat_map in H as (n & Hn & Hl).
  - apply (nodeLines_one_line n l (Hplain n Hn) Hl).
  - apply (relationshipLines_one_line n l (Hplain n Hn) Hl).
Qed.

(** ** The join table of a many-to-many pair *)

Lemma filter_filter {A : Type} (f g : A -> bool) (l : list A) :
  List.filter f (List.filter g l) = List.filter (fun x => g x && f x) l.
Proof.
  induction l as [|x l IH]; [reflexivity|].
  simpl. destruct (g x); simpl; [destruct (f x)|]; rewrite IH; reflexivity.
Qed.

(** The edges for which a join table named [table] is written are the
    edges of the many-to-many pair over [table] that are not inverse. *)
Lemma joinTablesWritten_pair (table : string) (graph : Graph) :
  joinTablesWritten table graph
    = List.filter (fun e => negb (Edge_IsInverse e)) (manyToManyOver table graph).
Proof.
  unfold joinTablesWritten, manyToManyOver. rewrite filter_filter.
  apply filter_ext. intros e. unfold writesJoinTableOf, writesJoinTable.
  destruct (Edge_M2M e), (Edge_IsInverse e),
    (String.eqb (Relation_Table (Edge_Rel e)) table); reflexivity.
Qed.

Lemma allEdges_plain (graph : Graph) (e : Edge) :
  plain_graph graph = true -> In e (allEdges graph) -> plain_edge e = true.
Proof.
  intros Hplain H. unfold plain_graph in Hplain. rewrite forallb_forall in Hplain.
  apply in_flat_map in H as (n & Hn & He).
  destruct (plain_node_parts n (Hplain n Hn)) as (_ & _ & _ & _ & Hedges).
  apply Hedges. exact He.
Qed.

(** C1.  Take a graph in which the many-to-many edges over the join table
    [table] are the two edges of one pair, in either order, both with the
    columns [columns] and exactly one of them inverse.  Then the first
    pass, which writes the join tables of the edges of a node that are
    many-to-many and not inverse, writes a join table named [table] for
    exactly one edge of the graph, one of the pair, and its block is the
    block of [table] and [columns].  When moreover the names of the graph
    are identifiers of the diagram grammar and no entity is named [table],
    [generateMermaidCode] returns a text in which that block, the header
    line, one line for each column and the closing lines, occurs at exactly
    one position. *)
Theorem joinTable_block_once
    (graph : Graph) (table : string) (columns : list string) (first second : Edge) :
  manyToManyOver table graph = [first; second] ->
  Relation_Columns (Edge_Rel first) = columns ->
  Relation_Columns (Edge_Rel second) = columns ->
  xorb (Edge_IsInverse first) (Edge_IsInverse second) = true ->
  (forall (node : Type_) (b : Builder),
     fold_left joinTableBody (Type_Edges node) b
       = b +:+ concat_strings
                 (map (fun e => joinTableBlock (Relation_Table (Edge_Rel e))
                                  (Relation_Columns (Edge_Rel e)))
                    (List.filter writesJoinTable (Type_Edges node))))
  /\ (exists edge : Edge,
        joinTablesWritten table graph = [edge]
        /\ (edge = first \/ edge = second)
        /\ joinTableBlock (Relation_Table (Edge_Rel edge)) (Relation_Columns (Edge_Rel edge))
           = joinTableBlock table columns)
  /\ (plain_graph graph = true ->
      forallb (fun n => negb (String.eqb (Type_Name n) table)) (Graph_Nodes graph) = true ->
      exists out : string,
        generateMermaidCode graph = Ok out
        /\ occurrences (joinTableBlock table columns) out = 1%nat).
Proof.
  intros Hpair Hc1 Hc2 Hx.
  assert (Hin : forall e, In e (manyToManyOver table graph) ->
                  In e (allEdges graph) /\ Relation_Table (Edge_Rel e) = table).
  { intros e H. unfold manyToManyOver in H. apply filter_In in H as [H1 H2].
    apply andb_true_iff in H2 as [_ H2]. apply String.eqb_eq in H2. split; assumption. }
  assert (Hpaircols : forall e, In e (manyToManyOver table graph) ->
                        Relation_Columns (Edge_Rel e) = columns).
  { intros e H. rewrite Hpair in H. destruct H as [<-|[<-|[]]]; assumption. }
  assert (Hwritten : exists edge, joinTablesWritten table graph = [edge]
                                  /\ (edge = first \/ edge = second)).
  { rewrite joinTablesWritten_pair, Hpair. simpl.
    destruct (Edge_IsInverse first), (Edge_IsInverse second); try discriminate Hx; simpl.
    - exists second. split; [reflexivity | right; reflexivity].
    - exists first. split; [reflexivity | left; reflexivity]. }
  destruct Hwritten as (edge & Hedge & Hwhich).
  assert (Hedgein : In edge (manyToManyOver table graph)).
  { rewrite Hpair. destruct Hwhich as [->| ->]; [left | right; left]; reflexivity. }
  split; [intros node b; apply joinTables_loop|]. split.
  - exists edge. split; [exact Hedge|]. split; [exact Hwhich|].
    rewrite (proj2 (Hin edge Hedgein)), (Hpaircols edge Hedgein). reflexivity.
  - intros Hplain Hnames. exists (diagramText graph).
    split; [apply generateMermaidCode_text|].
    destruct (plain_edge_parts edge (allEdges_plain graph edge Hplain (proj1 (Hin edge Hedgein))))
      as (_ & _ & Htable & Hcolumns & _).
    rewrite (proj2 (Hin edge Hedgein)) in Htable.
    rewrite (Hpaircols edge Hedgein) in Hcolumns.
    assert (Hblock : forallb one_line (joinTableLines table columns) = true).
    { apply forallb_forall. intros l. apply joinTableLines_one_line; assumption. }
    rewrite joinTableLines_eq in Hblock. simpl in Hblock.
    apply andb_true_iff in Hblock as [Hhead Htail].
    rewrite diagramText_lines, joinTableBlock_lines, joinTableLines_eq.
    rewrite occurrences_unlines;
      [|exact Hhead | exact Htail | apply diagramLines_one_line; exact Hplain].
    rewrite (count_diagramLines table columns graph Hplain).
    + rewrite Hedge. reflexivity.
    + rewrite forallb_forall in Hnames. intros n Hn. specialize (Hnames n Hn).
      apply negb_true_iff, String.eqb_neq in Hnames. exact Hnames.
    + intros e He Hw. apply Hpaircols. unfold manyToManyOver. apply filter_In.
      split; [exact He|]. unfold writesJoinTableOf, writesJoinTable in Hw.
      apply andb_true_iff in Hw as [Hw Ht]. apply andb_true_iff in Hw as [Hm _].
      rewrite Hm, Ht. reflexivity.
Qed.

Lemma joinTable_block_once_witness :
  manyToManyOver "user_groups" Example.graph = [Example.groups; Example.users]
  /\ manyToManyOver "user_groups" Example.graph_reversed = [Example.users; Example.groups]
  /\ xorb (Edge_IsInverse Example.groups) (Edge_IsInverse Example.users) = true
  /\ plain_graph Example.graph = true
  /\ plain_graph Example.graph_reversed = true
  /\ joinTablesWritten "user_groups" Example.graph = [Example.groups]
  /\ joinTablesWritten "user_groups" Example.graph_reversed = [Example.groups]
  /\ (exists out : string,
        generateMermaidCode Example.graph = Ok out
        /\ occurrences (joinTableBlock "user_groups" ["user_id"; "group_id"]) out = 1%nat)
  /\ (exists out : string,
        generateMermaidCode Example.graph_reversed = Ok out
        /\ occurrences (joinTableBlock "user_groups" ["user_id"; "group_id"]) out = 1%nat).
Proof.
  destruct (joinTable_block_once Example.graph "user_groups" ["user_id"; "group_id"]
              Example.groups Example.users eq_refl eq_refl eq_refl eq_refl)
    as (_ & _ & Hforward).
  destruct (joinTable_block_once Example.graph_reversed "user_groups" ["user_id"; "group_id"]
              Example.users Example.groups eq_refl eq_refl eq_refl eq_refl)
    as (_ & _ & Hreversed).
  repeat (split; [reflexivity|]).
  split; [apply Hforward | apply Hreversed]; reflexivity.
Defined.

(** * Further properties of the program *)

(** ** The diagram builder as a whole *)

(** X1.  [generateMermaidCode] never returns an error, whatever the graph:
    no write to the builder fails.  Its text is the heading, then the
    blocks of the first pass for every node in order, then the
    relationship lines of the second pass for every node in order; so
    the text of a graph whose nodes are [nodes1] followed by [nodes2] puts
    the blocks of [nodes1] and [nodes2] before any relationship line. *)
Theorem generateMermaidCode_never_fails (nodes1 nodes2 : list Type_) :
  (forall graph : Graph, exists text : string, generateMermaidCode graph = Ok text)
  /\ (forall (node : Type_) (b : Builder),
        nodeBody b node = b +:+ nodeBody "" node
        /\ exists lines : string,
             relationshipsOfNode "" node = Ok lines
             /\ relationshipsOfNode b node = Ok (b +:+ lines))
  /\ generateMermaidCode {| Graph_Nodes := nodes1 ++ nodes2 |}
     = Ok ("erDiagram" +:+ LF
           +:+ concat_strings (map (nodeBody "") nodes1)
           +:+ concat_strings (map (nodeBody "") nodes2)
           +:+ concat_strings (map relationshipsText nodes1)
           +:+ concat_strings (map relationshipsText nodes2)).
Proof.
  split; [|split].
  - intros graph. exists (diagramText graph). apply generateMermaidCode_text.
  - intros node b. split.
    + rewrite !nodeBody_text. reflexivity.
    + exists (relationshipsText node). rewrite !relationshipsOfNode_text. split; reflexivity.
  - rewrite generateMermaidCode_text. unfold diagramText. simpl Graph_Nodes.
    rewrite !map_app, !concat_strings_app, ?append_assoc.
    rewrite !(map_ext (nodeBody "") nodeText) by (intros n; apply (nodeBody_text n "")).
    reflexivity.
Qed.

(** X2.  A graph without nodes gives exactly the heading line.  A graph
    whose nodes have no edges gives the heading followed by the entity
    blocks, with no join table and no relationship line. *)
Theorem generateMermaidCode_without_edges (graph : Graph) :
  (Graph_Nodes graph = [] -> generateMermaidCode graph = Ok ("erDiagram" +:+ LF))
  /\ (Forall (fun node => Type_Edges node = []) (Graph_Nodes graph) ->
      generateMermaidCode graph
        = Ok ("erDiagram" +:+ LF
              +:+ concat_strings
                    (map (fun node =>
                            " " +:+ Type_Name node +:+ " {" +:+ LF
                            +:+ idLine node
                            +:+ concat_strings (map fieldLine (Type_Fields node))
                            +:+ concat_strings
                                  (map foreignKeyLine
                                     (List.filter (fun fk => negb (ForeignKey_UserDefined fk))
                                        (Type_ForeignKeys node)))
                            +:+ " }" +:+ LF +:+ LF)
                       (Graph_Nodes graph)))).
Proof.
  split.
  - intros H. rewrite generateMermaidCode_text. unfold diagramText. rewrite H. reflexivity.
  - intros H. rewrite generateMermaidCode_text. unfold diagramText.
    rewrite List.Forall_forall in H.
    assert (Hrel : concat_strings (map relationshipsText (Graph_Nodes graph)) = "").
    { induction (Graph_Nodes graph) as [|node nodes IH]; [reflexivity|].
      simpl. unfold relationshipsText at 1. rewrite (H node (or_introl eq_refl)).
      simpl. rewrite append_nil_l. apply IH. intros n Hn. apply H. right. exact Hn. }
    rewrite Hrel, append_nil_r.
    erewrite (map_ext_in nodeText); [reflexivity|].
    intros node Hnode. unfold nodeText. rewrite (H node Hnode).
    simpl. rewrite append_nil_r, ?append_assoc. reflexivity.
Qed.

Lemma generateMermaidCode_without_edges_witness :
  generateMermaidCode {| Graph_Nodes := [] |} = Ok ("erDiagram" +:+ LF)
  /\ generateMermaidCode {| Graph_Nodes := [Cases.Lonely] |}
     = Ok ("erDiagram" +:+ LF +:+ " Lonely {" +:+ LF +:+ "  uuid-UUID id PK" +:+ LF
           +:+ " }" +:+ LF +:+ LF).
Proof.
  split.
  - apply (proj1 (generateMermaidCode_without_edges {| Graph_Nodes := [] |})). reflexivity.
  - rewrite (proj2 (generateMermaidCode_without_edges {| Graph_Nodes := [Cases.Lonely] |})).
    + reflexivity.
    + repeat constructor.
Defined.

(** X3.  In a graph whose names are identifiers of the diagram grammar and
    in which no entity is named [table], the block of the join table
    [table] with the columns [columns] occurs in the text of
    [generateMermaidCode] as many times as the graph has edges that are
    many-to-many over [table] and not inverse, provided these edges carry
    the columns [columns]: not at all when only inverse edges name the
    table, twice when both directions of a pair are forward edges. *)
Theorem joinTable_block_occurrences (graph : Graph) (table : string) (columns : list string) :
  plain_graph graph = true ->
  forallb (fun n => negb (String.eqb (Type_Name n) table)) (Graph_Nodes graph) = true ->
  one_line table = true ->
  forallb one_line columns = true ->
  (forall e : Edge, In e (joinTablesWritten table graph) ->
     Relation_Columns (Edge_Rel e) = columns) ->
  exists out : string,
    generateMermaidCode graph = Ok out
    /\ occurrences (joinTableBlock table columns) out
       = length (joinTablesWritten table graph).
Proof.
  intros Hplain Hnames Htable Hcolumns Hsame.
  exists (diagramText graph). split; [apply generateMermaidCode_text|].
  rewrite diagramText_lines, joinTableBlock_lines, joinTableLines_eq.
  rewrite occurrences_unlines.
  - apply count_diagramLines.
    + exact Hplain.
    + rewrite forallb_forall in Hnames. intros n Hn. specialize (Hnames n Hn).
      apply negb_true_iff, String.eqb_neq in Hnames. exact Hnames.
    + intros e He Hw. apply Hsame. unfold joinTablesWritten. apply filter_In.
      split; assumption.
  - unfold blockHead. rewrite !one_line_app, Htable. reflexivity.
  - unfold blockTail. rewrite forallb_app. apply andb_true_intro. split; [|reflexivity].
    rewrite forallb_forall in Hcolumns. apply forallb_forall. intros l Hl.
    apply in_map_iff in Hl as (c & <- & Hc). rewrite !one_line_app, (Hcolumns c Hc).
    reflexivity.
  - apply diagramLines_one_line. exact Hplain.
Qed.

Lemma joinTable_block_occurrences_witness :
  joinTablesWritten "user_groups" Cases.both_forward = [Example.groups; Cases.users_forward]
  /\ joinTablesWritten "user_groups" Cases.inverse_only = []
  /\ (exists out : string,
        generateMermaidCode Cases.both_forward = Ok out
        /\ occurrences (joinTableBlock "user_groups" ["user_id"; "group_id"]) out = 2%nat)
  /\ (exists out : string,
        generateMermaidCode Cases.inverse_only = Ok out
        /\ occurrences (joinTableBlock "user_groups" ["user_id"; "group_id"]) out = 0%nat).
Proof.
  split; [reflexivity|]. split; [reflexivity|]. split.
  - apply (joinTable_block_occurrences Cases.both_forward "user_groups"
             ["user_id"; "group_id"]); try reflexivity.
    intros e [<-|[<-|[]]]; reflexivity.
  - apply (joinTable_block_occurrences Cases.inverse_only "user_groups"
             ["user_id"; "group_id"]); try reflexivity.
    intros e [].
Defined.

(** X4.  The second pass never writes the many-to-many symbol of
    [getEdgeRelationship]: that function answers [}o--o{] exactly for a
    many-to-many edge, and the line that the pass writes for such an edge
    carries [|o--o{] and the name of the join table.  Every edge either
    leaves the builder as it is or adds one line whose symbol is [|o--o{],
    [}o--o|] or [|o--o|].  In the output of [generateMermaidCode] the
    lines after the blocks of the first pass are the relationship lines:
    as many as the graph has edges that are many-to-many or not inverse,
    and each is the line of such an edge of a node of the graph, with
    [|o--o{] and the join table for a many-to-many edge and with the
    answer of [getEdgeRelationship], one of the three symbols, and the
    target entity for any other. *)
Theorem relationship_symbols (graph : Graph) (node : Type_) (b : Builder) (edge : Edge) :
  (getEdgeRelationship edge = "}o--o{" <-> Edge_M2M edge = true)
  /\ (Edge_M2M edge = true ->
        relationshipBody node b edge
        = Ok (b +:+ " " +:+ Type_Name node +:+ " " +:+ "|o--o{" +:+ " "
              +:+ Relation_Table (Edge_Rel edge) +:+ " : " +:+ Edge_Name edge
              +:+ getEdgeRefName (Edge_Ref edge) +:+ LF))
  /\ (relationshipBody node b edge = Ok b
      \/ exists symbol target : string,
           In symbol ["|o--o{"; "}o--o|"; "|o--o|"]
           /\ relationshipBody node b edge
              = Ok (b +:+ " " +:+ Type_Name node +:+ " " +:+ symbol +:+ " " +:+ target
                    +:+ " : " +:+ Edge_Name edge +:+ getEdgeRefName (Edge_Ref edge) +:+ LF))
  /\ generateMermaidCode graph
     = Ok (unlines ("erDiagram" :: flat_map nodeLines (Graph_Nodes graph)
                    ++ flat_map relationshipLines (Graph_Nodes graph)))
  /\ length (flat_map relationshipLines (Graph_Nodes graph))
     = length (List.filter writesRelationship (allEdges graph))
  /\ (forall line : string,
        In line (flat_map relationshipLines (Graph_Nodes graph)) ->
        exists (owner : Type_) (e : Edge) (symbol target : string),
          In owner (Graph_Nodes graph) /\ In e (Type_Edges owner)
          /\ In symbol ["|o--o{"; "}o--o|"; "|o--o|"]
          /\ (Edge_M2M e = true ->
                symbol = "|o--o{" /\ target = Relation_Table (Edge_Rel e))
          /\ (Edge_M2M e = false ->
                Edge_IsInverse e = false
                /\ symbol = getEdgeRelationship e /\ target = Edge_Type e)
          /\ line = " " +:+ Type_Name owner +:+ " " +:+ symbol +:+ " " +:+ target
                    +:+ " : " +:+ Edge_Name e +:+ getEdgeRefName (Edge_Ref e)).
Proof.
  split; [|split; [|split; [|split; [|split]]]].
  - unfold getEdgeRelationship, Edge_O2M, Edge_M2O, Edge_M2M.
    destruct (Relation_Type (Edge_Rel edge)); simpl; split; intros H;
      try reflexivity; discriminate H.
  - intros HM. unfold relationshipBody. rewrite HM. reflexivity.
  - unfold relationshipBody, getEdgeRelationship, Edge_O2M, Edge_M2O, Edge_M2M.
    destruct (Relation_Type (Edge_Rel edge)); simpl;
      try (destruct (Edge_IsInverse edge); [left; reflexivity|]); right.
    + exists "|o--o|", (Edge_Type edge). split; [simpl; tauto | reflexivity].
    + exists "|o--o|", (Edge_Type edge). split; [simpl; tauto | reflexivity].
    + exists "|o--o{", (Edge_Type edge). split; [simpl; tauto | reflexivity].
    + exists "}o--o|", (Edge_Type edge). split; [simpl; tauto | reflexivity].
    + exists "|o--o{", (Relation_Table (Edge_Rel edge)). split; [simpl; tauto | reflexivity].
  - rewrite generateMermaidCode_text, diagramText_lines. reflexivity.
  - unfold allEdges. induction (Graph_Nodes graph) as [|n nodes IH]; [reflexivity|].
    cbn [flat_map]. rewrite List.filter_app, !List.length_app, IH.
    unfold relationshipLines. rewrite List.length_map. reflexivity.
  - intros line Hin.
    apply in_flat_map in Hin as (owner & Howner & Hin).
    unfold relationshipLines in Hin.
    apply in_map_iff in Hin as (e & Hline & He).
    apply filter_In in He as (He & Hw).
    unfold writesRelationship in Hw.
    exists owner, e.
    destruct (Edge_M2M e) eqn:HM.
    + exists "|o--o{", (Relation_Table (Edge_Rel e)).
      repeat split; try assumption; try (simpl; tauto); try discriminate.
      symmetry. exact Hline.
    + exists (getEdgeRelationship e), (Edge_Type e).
      cbn [orb] in Hw. apply negb_true_iff in Hw.
      repeat split; try assumption; try discriminate.
      * unfold getEdgeRelationship, Edge_O2M, Edge_M2O, Edge_M2M. unfold Edge_M2M in HM.
        destruct (Relation_Type (Edge_Rel e)); try discriminate HM; simpl; tauto.
      * symmetry. exact Hline.
Qed.

Lemma relationship_symbols_witness :
  Edge_M2M Example.groups = true
  /\ getEdgeRelationship Example.groups = "}o--o{"
  /\ relationshipBody Example.User "erDiagram" Example.groups
     = Ok ("erDiagram" +:+ " User |o--o{ user_groups : groups" +:+ LF)
  /\ flat_map relationshipLines (Graph_Nodes Example.graph)
     = [" User |o--o{ user_groups : groups"; " User |o--o{ Pet : pets";
        " Group |o--o{ user_groups : users-groups"]
  /\ length (List.filter writesRelationship (allEdges Example.graph)) = 3%nat
  /\ generateMermaidCode Example.graph
     = Ok (unlines
             ["erDiagram";
              " User {"; "  int id PK"; "  timestamp created_at"; " }"; "";
              " user_groups {"; "  int user_id PK,FK"; "  int group_id PK,FK"; " }"; "";
              " Group {"; "  int id PK"; "  string name"; " }"; "";
              " Pet {"; "  int id PK"; "  int user_pets FK"; " }"; "";
              " User |o--o{ user_groups : groups";
              " User |o--o{ Pet : pets";
              " Group |o--o{ user_groups : users-groups"]).
Proof.
  destruct (relationship_symbols Example.graph Example.User "erDiagram" Example.groups)
    as (Hsymbol & Hline & _ & Hout & Hcount & _).
  split; [reflexivity|].
  split; [exact (proj2 Hsymbol eq_refl)|].
  split; [exact (Hline eq_refl)|].
  split; [reflexivity|].
  split; [rewrite <- Hcount; reflexivity | exact Hout].
Defined.

(** ** Type formatting, on every input *)

Lemma dots_to_dashes_not_named (s : string) :
  ~ In s named_types -> ~ In (dots_to_dashes s) named_types.
Proof.
  intros Hs H.
  assert (Hsame : count_byte "-" (dots_to_dashes s) = 0%nat -> dots_to_dashes s = s).
  { intros H0. rewrite dots_to_dashes_dashes in H0.
    apply dots_to_dashes_dot_free. lia. }
  pose proof (dots_to_dashes_no_dot s) as Hdot.
  unfold named_types in H. simpl in H.
  destruct H as [H|[H|[H|[H|[]]]]].
  - rewrite <- H in Hdot. discriminate Hdot.
  - apply Hs. rewrite <- Hsame; rewrite <- H; [simpl; tauto | reflexivity].
  - apply Hs. rewrite <- Hsame; rewrite <- H; [simpl; tauto | reflexivity].
  - apply Hs. rewrite <- Hsame; rewrite <- H; [simpl; tauto | reflexivity].
Qed.

Lemma named_types_dec (s : string) : {In s named_types} + {~ In s named_types}.
Proof. apply in_dec. apply string_dec. Qed.

(** X5.  Whatever the type text, the token that [formatType] returns holds
    no ["."], and formatting a token again changes nothing. *)
Theorem formatType_token (s : string) :
  count_byte "." (formatType s) = 0%nat
  /\ formatType (formatType s) = formatType s.
Proof.
  destruct (named_types_dec s) as [Hin|Hout].
  - unfold named_types in Hin. simpl in Hin.
    destruct Hin as [<-|[<-|[<-|[<-|[]]]]]; split; reflexivity.
  - rewrite (formatType_default s Hout). split; [apply dots_to_dashes_no_dot|].
    rewrite (formatType_default _ (dots_to_dashes_not_named s Hout)).
    apply dots_to_dashes_dot_free. apply dots_to_dashes_no_dot.
Qed.

(** ** The splicer and the disk *)

Lemma length_upto (s : string) (n : nat) :
  (n <= String.length s)%nat -> String.length (strings.upto n s) = n.
Proof.
  revert s. induction n as [|n IH]; intros s H; [destruct s; reflexivity|].
  destruct s as [|c s]; [simpl in H; lia|]. simpl. rewrite IH; [reflexivity|].
  simpl in H. lia.
Qed.

Lemma upto_append (s t : string) : strings.upto (String.length s) (s +:+ t) = s.
Proof.
  induction s as [|c s IH]; [destruct t; reflexivity|].
  rewrite append_cons. simpl. rewrite IH. reflexivity.
Qed.

Lemma from_append (s t : string) : strings.from (String.length s) (s +:+ t) = t.
Proof.
  induction s as [|c s IH]; [destruct t; reflexivity|].
  rewrite append_cons. simpl. exact IH.
Qed.

Lemma upto_split (s : string) (a b : nat) :
  (a <= b)%nat ->
  strings.upto b s = strings.upto a s +:+ strings.upto (b - a) (strings.from a s).
Proof.
  revert s b. induction a as [|a IH]; intros s b H.
  - rewrite Nat.sub_0_r. destruct s; reflexivity.
  - destruct b as [|b]; [lia|].
    destruct s as [|c s]; [simpl; destruct (b - a)%nat; reflexivity|].
    simpl. rewrite append_cons, (IH s b) by lia. reflexivity.
Qed.

(** A prefix of a text, cut inside a longer prefix. *)
Lemma append_prefix (u x v y : string) :
  u +:+ x = v +:+ y -> (String.length v <= String.length u)%nat ->
  exists r : string, u = v +:+ r.
Proof.
  revert u. induction v as [|c v IH]; intros u H Hlen.
  - exists u. reflexivity.
  - destruct u as [|d u]; [simpl in Hlen; lia|].
    rewrite !append_cons in H. injection H as -> H.
    destruct (IH u H) as [r ->]; [simpl in Hlen; lia|].
    exists r. reflexivity.
Qed.

(** The first occurrence of a pattern stays where it is when the text is
    changed after the byte that follows it. *)
Lemma first_occurrence_kept (pattern text rest : string) (i : Z) :
  first_occurrence pattern text i ->
  i + len pattern + 1 <= len text ->
  first_occurrence pattern
    (strings.upto (Z.to_nat (i + len pattern + 1)) text +:+ rest) i.
Proof.
  intros (before & after & Htext & Hlen & Hmin) Hfollow.
  pose proof (len_nonneg pattern) as Hp. pose proof (len_nonneg before) as Hb.
  set (cut := Z.to_nat (i + len pattern + 1)).
  assert (Hcut : (cut <= String.length text)%nat) by (unfold cut, len in *; lia).
  assert (Hkept : exists c, strings.upto cut text = before +:+ pattern +:+ String c "").
  { destruct after as [|c after].
    - exfalso. rewrite Htext, !len_app in Hfollow. unfold len in *. simpl in Hfollow. lia.
    - exists c.
      replace cut with (String.length (before +:+ pattern +:+ String c "")).
      + rewrite Htext.
        replace (before +:+ pattern +:+ String c after)
          with ((before +:+ pattern +:+ String c "") +:+ after)
          by (rewrite !append_assoc; reflexivity).
        apply upto_append.
      + rewrite !length_append. unfold cut, len in *. simpl. lia. }
  destruct Hkept as [c Hkept].
  exists before, (String c "" +:+ rest). split; [|split].
  - rewrite Hkept, !append_assoc. reflexivity.
  - exact Hlen.
  - intros before' after' Hdec.
    destruct (Z.lt_ge_cases (len before') i) as [Hlt|Hge]; [exfalso|lia].
    destruct (append_prefix (strings.upto cut text) rest (before' +:+ pattern) after')
      as [r Hr].
    + rewrite Hdec, !append_assoc. reflexivity.
    + rewrite length_upto, length_append by exact Hcut. unfold cut, len in *. lia.
    + assert (Htext' : text = before' +:+ pattern +:+ r +:+ strings.from cut text).
      { rewrite <- (upto_from text cut) at 1. rewrite Hr, !append_assoc. reflexivity. }
      specialize (Hmin before' (r +:+ strings.from cut text) Htext'). lia.
Qed.

(** However the call ends, the disk is as before or as one write to the
    target path left it. *)
Lemma insertMultiLineString_cases {FS : Type}
    (ReadFile : FS -> string -> result string)
    (WriteFile : FS -> string -> string -> FS * option error)
    (fs : FS) (filePath multiLineString startPattern endPattern : string) :
  (exists err : error,
     insertMultiLineString ReadFile WriteFile fs filePath multiLineString
       startPattern endPattern = (fs, Returns (Some err)))
  \/ insertMultiLineString ReadFile WriteFile fs filePath multiLineString
       startPattern endPattern = (fs, Panics)
  \/ (exists content : string,
        insertMultiLineString ReadFile WriteFile fs filePath multiLineString
          startPattern endPattern
        = (fst (WriteFile fs filePath content), Returns (snd (WriteFile fs filePath content)))).
Proof.
  unfold insertMultiLineString.
  destruct (ReadFile fs filePath) as [fileContent|err]; [|left; eexists; reflexivity].
  destruct ((strings.Index fileContent startPattern =? -1)
            || (strings.Index fileContent endPattern =? -1));
    [left; eexists; reflexivity|].
  destruct (strings.SliceTo _ _) as [before|]; [|right; left; reflexivity].
  destruct (strings.SliceFrom _ _) as [after|]; [|right; left; reflexivity].
  right. right. exists (before +:+ multiLineString +:+ LF +:+ after).
  destruct (WriteFile _ _ _). reflexivity.
Qed.

(** X6.  On a disk that is a map from paths to contents, the call changes
    no file but the target: whatever the arguments and however the call
    ends, every other path holds what it held.  A target that is not on
    the disk is not created: the read error comes back and the disk is as
    before. *)
Theorem insertMultiLineString_other_files
    (fs : gmap string string) (filePath multiLineString startPattern endPattern : string) :
  (forall other : string, other <> filePath ->
     fst (insertMultiLineString MemFS.ReadFile MemFS.WriteFile fs filePath multiLineString
            startPattern endPattern) !! other = fs !! other)
  /\ (fs !! filePath = None ->
      insertMultiLineString MemFS.ReadFile MemFS.WriteFile fs filePath multiLineString
        startPattern endPattern
      = (fs, Returns (Some ("open " +:+ filePath +:+ ": no such file or directory")))).
Proof.
  split.
  - intros other Hother.
    destruct (insertMultiLineString_cases MemFS.ReadFile MemFS.WriteFile fs filePath
                multiLineString startPattern endPattern) as [[err H]|[H|[content H]]];
      rewrite H; simpl; [reflexivity | reflexivity |].
    apply lookup_insert_ne. congruence.
  - intros H. unfold insertMultiLineString, MemFS.ReadFile. rewrite H. reflexivity.
Qed.

Lemma insertMultiLineString_other_files_witness :
  fst (insertMultiLineString MemFS.ReadFile MemFS.WriteFile two_files "README.md" "X"
         "<<<START>>>" "<<<END>>>") !! "NOTES.md" = Some "keep"
  /\ two_files !! "MISSING.md" = None
  /\ insertMultiLineString MemFS.ReadFile MemFS.WriteFile two_files "MISSING.md" "X"
       "<<<START>>>" "<<<END>>>"
     = (two_files, Returns (Some "open MISSING.md: no such file or directory")).
Proof.
  split; [|split; [reflexivity|]].
  - rewrite (proj1 (insertMultiLineString_other_files two_files "README.md" "X"
                      "<<<START>>>" "<<<END>>>") "NOTES.md"); [reflexivity | discriminate].
  - apply (proj2 (insertMultiLineString_other_files two_files "MISSING.md" "X"
                    "<<<START>>>" "<<<END>>>")). reflexivity.
Defined.

Lemma first_occurrence_from (pattern text : string) (i : Z) :
  first_occurrence pattern text i ->
  exists after : string, strings.from (Z.to_nat i) text = pattern +:+ after.
Proof.
  intros (before & after & Htext & Hlen & _). exists after.
  rewrite Htext. replace (Z.to_nat i) with (String.length before) by (unfold len in Hlen; lia).
  apply from_append.
Qed.

(** The text that a splice writes, and what a second splice finds in it. *)
Lemma spliced_text (text inserted startPattern endPattern : string) (startIndex endIndex : Z) :
  first_occurrence startPattern text startIndex ->
  first_occurrence endPattern text endIndex ->
  startIndex + len startPattern + 1 <= len text ->
  let cut := Z.to_nat (startIndex + len startPattern + 1) in
  let updated :=
    strings.upto cut text +:+ inserted +:+ LF +:+ strings.from (Z.to_nat endIndex) text in
  first_occurrence startPattern updated startIndex
  /\ occurs_in endPattern updated
  /\ startIndex + len startPattern + 1 <= len updated
  /\ strings.upto cut updated = strings.upto cut text
  /\ strings.from (cut + String.length inserted + 1) updated
     = strings.from (Z.to_nat endIndex) text.
Proof.
  intros Hs He Hfollow cut updated.
  pose proof (len_nonneg startPattern) as Hp.
  assert (Hs0 : 0 <= startIndex).
  { destruct Hs as (before & _ & _ & Hlen & _). pose proof (len_nonneg before). lia. }
  assert (Hcut : (cut <= String.length text)%nat) by (unfold cut, len in *; lia).
  assert (Hlencut : String.length (strings.upto cut text) = cut) by (apply length_upto; exact Hcut).
  split; [|split; [|split; [|split]]].
  - apply first_occurrence_kept; assumption.
  - destruct (first_occurrence_from _ _ _ He) as [after Hafter].
    exists (strings.upto cut text +:+ inserted +:+ LF), after.
    unfold updated. rewrite Hafter, !append_assoc. reflexivity.
  - unfold updated. rewrite len_app. unfold len at 2. rewrite Hlencut.
    pose proof (len_nonneg (inserted +:+ LF +:+ strings.from (Z.to_nat endIndex) text)).
    unfold cut. lia.
  - unfold updated. rewrite <- Hlencut at 1. apply upto_append.
  - unfold updated.
    replace (strings.upto cut text +:+ inserted +:+ LF +:+ strings.from (Z.to_nat endIndex) text)
      with ((strings.upto cut text +:+ inserted +:+ LF)
            +:+ strings.from (Z.to_nat endIndex) text)
      by (rewrite !append_assoc; reflexivity).
    replace (cut + String.length inserted + 1)%nat
      with (String.length (strings.upto cut text +:+ inserted +:+ LF)).
    + apply from_append.
    + rewrite !length_append, Hlencut. simpl. lia.
Qed.

(** On a disk that is a map, a splice with both patterns found and a
    character after the start pattern replaces the content of the file. *)
Lemma MemFS_splice
    (fs : gmap string string)
    (filePath inserted startPattern endPattern fileContent : string)
    (startIndex endIndex : Z) :
  fs !! filePath = Some fileContent ->
  first_occurrence startPattern fileContent startIndex ->
  first_occurrence endPattern fileContent endIndex ->
  startIndex + len startPattern + 1 <= len fileContent ->
  insertMultiLineString MemFS.ReadFile MemFS.WriteFile fs filePath inserted
    startPattern endPattern
  = (<[filePath := strings.upto (Z.to_nat (startIndex + len startPattern + 1)) fileContent
                   +:+ inserted +:+ LF
                   +:+ strings.from (Z.to_nat endIndex) fileContent]> fs,
     Returns None).
Proof.
  intros Hread Hs He Hfollow.
  apply Index_first in Hs as [Hsi Hsn], He as [Hei Hen].
  rewrite (insertMultiLineString_writes MemFS.ReadFile MemFS.WriteFile fs filePath inserted
             startPattern endPattern fileContent);
    [| unfold MemFS.ReadFile; rewrite Hread; reflexivity | rewrite Hsi; exact Hsn
     | rewrite Hei; exact Hen | rewrite Hsi; exact Hfollow].
  rewrite Hsi, Hei. reflexivity.
Qed.

(** X7.  After a splice that wrote, a second splice with the same
    patterns, of any text, also writes: it finds the start pattern at the
    same index and the end pattern somewhere, it does not panic, and it
    keeps the same prefix of the file. *)
Theorem insertMultiLineString_again
    (fs : gmap string string)
    (filePath first second startPattern endPattern fileContent : string)
    (startIndex endIndex : Z) :
  fs !! filePath = Some fileContent ->
  first_occurrence startPattern fileContent startIndex ->
  first_occurrence endPattern fileContent endIndex ->
  startIndex + len startPattern + 1 <= len fileContent ->
  let cut := Z.to_nat (startIndex + len startPattern + 1) in
  let updated :=
    strings.upto cut fileContent +:+ first +:+ LF
    +:+ strings.from (Z.to_nat endIndex) fileContent in
  insertMultiLineString MemFS.ReadFile MemFS.WriteFile fs filePath first
    startPattern endPattern = (<[filePath := updated]> fs, Returns None)
  /\ first_occurrence startPattern updated startIndex
  /\ occurs_in endPattern updated
  /\ exists after : string,
       insertMultiLineString MemFS.ReadFile MemFS.WriteFile (<[filePath := updated]> fs)
         filePath second startPattern endPattern
       = (<[filePath := strings.upto cut fileContent +:+ second +:+ LF +:+ after]> fs,
          Returns None).
Proof.
  intros Hread Hs He Hfollow. cbv zeta.
  destruct (spliced_text fileContent first startPattern endPattern startIndex endIndex
              Hs He Hfollow) as (Hs' & He' & Hfollow' & Hupto & _).
  split; [|split; [exact Hs'|split; [exact He'|]]].
  - apply MemFS_splice; assumption.
  - apply Index_first in Hs' as [Hsi' Hsn']. apply occurs_in_Index in He'.
    eexists.
    rewrite (insertMultiLineString_writes MemFS.ReadFile MemFS.WriteFile _ filePath second
               startPattern endPattern _ ltac:(unfold MemFS.ReadFile;
                                               rewrite lookup_insert_eq; reflexivity));
      [| rewrite Hsi'; exact Hsn' | exact He' | rewrite Hsi'; exact Hfollow'].
    rewrite Hsi', Hupto. simpl. rewrite insert_insert_eq. reflexivity.
Qed.

(** X8.  When, in the text that a splice wrote, the first occurrence of the
    end pattern is where the kept tail begins, that is, the end pattern
    does not show up earlier in the kept prefix or in the inserted text,
    a second splice replaces the text inserted by the first: the disk is
    the one that splicing the second text into the original file gives.
    Splicing the same text twice is splicing it once. *)
Theorem insertMultiLineString_replaces
    (fs : gmap string string)
    (filePath first second startPattern endPattern fileContent : string)
    (startIndex endIndex : Z) :
  fs !! filePath = Some fileContent ->
  first_occurrence startPattern fileContent startIndex ->
  first_occurrence endPattern fileContent endIndex ->
  startIndex + len startPattern + 1 <= len fileContent ->
  first_occurrence endPattern
    (strings.upto (Z.to_nat (startIndex + len startPattern + 1)) fileContent
     +:+ first +:+ LF +:+ strings.from (Z.to_nat endIndex) fileContent)
    (startIndex + len startPattern + 1 + len first + 1) ->
  insertMultiLineString MemFS.ReadFile MemFS.WriteFile
    (fst (insertMultiLineString MemFS.ReadFile MemFS.WriteFile fs filePath first
            startPattern endPattern))
    filePath second startPattern endPattern
  = insertMultiLineString MemFS.ReadFile MemFS.WriteFile fs filePath second
      startPattern endPattern.
Proof.
  intros Hread Hs He Hfollow Hend.
  destruct (spliced_text fileContent first startPattern endPattern startIndex endIndex
              Hs He Hfollow) as (Hs' & He' & Hfollow' & Hupto & Hfrom).
  rewrite (MemFS_splice fs filePath first startPattern endPattern fileContent
             startIndex endIndex Hread Hs He Hfollow).
  simpl fst.
  pose proof (len_nonneg startPattern) as Hp.
  assert (Hs0 : 0 <= startIndex).
  { destruct Hs as (before & _ & _ & Hlen & _). pose proof (len_nonneg before). lia. }
  apply Index_first in Hs as [Hsi Hsn], He as [Hei Hen].
  apply Index_first in Hs' as [Hsi' Hsn'], Hend as [Hei' Hen'].
  rewrite (insertMultiLineString_writes MemFS.ReadFile MemFS.WriteFile _ filePath second
             startPattern endPattern _ ltac:(unfold MemFS.ReadFile;
                                             rewrite lookup_insert_eq; reflexivity));
    [| rewrite Hsi'; exact Hsn' | rewrite Hei'; exact Hen' | rewrite Hsi'; exact Hfollow'].
  rewrite (insertMultiLineString_writes MemFS.ReadFile MemFS.WriteFile fs filePath second
             startPattern endPattern fileContent);
    [| unfold MemFS.ReadFile; rewrite Hread; reflexivity | rewrite Hsi; exact Hsn
     | rewrite Hei; exact Hen | rewrite Hsi; exact Hfollow].
  rewrite Hsi', Hei', Hsi, Hei, Hupto.
  replace (Z.to_nat (startIndex + len startPattern + 1 + len first + 1))
    with (Z.to_nat (startIndex + len startPattern + 1) + String.length first + 1)%nat
    by (unfold len; lia).
  rewrite Hfrom. simpl. rewrite insert_insert_eq. reflexivity.
Qed.

Lemma insertMultiLineString_again_witness :
  Example.disk "A<<<START>>>Z<<<END>>>B" !! "README.md" = Some "A<<<START>>>Z<<<END>>>B"
  /\ first_occurrence "<<<START>>>" "A<<<START>>>Z<<<END>>>B" 1
  /\ first_occurrence "<<<END>>>" "A<<<START>>>Z<<<END>>>B" 13
  /\ insertMultiLineString MemFS.ReadFile MemFS.WriteFile
       (Example.disk "A<<<START>>>Z<<<END>>>B") "README.md" "X" "<<<START>>>" "<<<END>>>"
     = (Example.disk ("A<<<START>>>ZX" +:+ LF +:+ "<<<END>>>B"), Returns None)
  /\ first_occurrence "<<<START>>>" ("A<<<START>>>ZX" +:+ LF +:+ "<<<END>>>B") 1
  /\ occurs_in "<<<END>>>" ("A<<<START>>>ZX" +:+ LF +:+ "<<<END>>>B").
Proof.
  assert (Hs : first_occurrence "<<<START>>>" "A<<<START>>>Z<<<END>>>B" 1).
  { apply Index_first. split; [reflexivity | discriminate]. }
  assert (He : first_occurrence "<<<END>>>" "A<<<START>>>Z<<<END>>>B" 13).
  { apply Index_first. split; [reflexivity | discriminate]. }
  destruct (insertMultiLineString_again (Example.disk "A<<<START>>>Z<<<END>>>B")
              "README.md" "X" "Y" "<<<START>>>" "<<<END>>>" "A<<<START>>>Z<<<END>>>B" 1 13
              eq_refl Hs He ltac:(discriminate)) as (H1 & H2 & H3 & _).
  split; [reflexivity|]. split; [exact Hs|]. split; [exact He|].
  split; [rewrite H1; vm_compute; reflexivity|]. split; [exact H2 | exact H3].
Defined.

Lemma insertMultiLineString_replaces_witness :
  first_occurrence "<<<END>>>" ("A<<<START>>>ZX" +:+ LF +:+ "<<<END>>>B") 15
  /\ insertMultiLineString MemFS.ReadFile MemFS.WriteFile
       (fst (insertMultiLineString MemFS.ReadFile MemFS.WriteFile
               (Example.disk "A<<<START>>>Z<<<END>>>B") "README.md" "X"
               "<<<START>>>" "<<<END>>>"))
       "README.md" "Y" "<<<START>>>" "<<<END>>>"
     = (Example.disk ("A<<<START>>>ZY" +:+ LF +:+ "<<<END>>>B"), Returns None).
Proof.
  assert (Hs : first_occurrence "<<<START>>>" "A<<<START>>>Z<<<END>>>B" 1).
  { apply Index_first. split; [reflexivity | discriminate]. }
  assert (He : first_occurrence "<<<END>>>" "A<<<START>>>Z<<<END>>>B" 13).
  { apply Index_first. split; [reflexivity | discriminate]. }
  assert (He' : first_occurrence "<<<END>>>" ("A<<<START>>>ZX" +:+ LF +:+ "<<<END>>>B") 15).
  { apply Index_first. split; [reflexivity | discriminate]. }
  split; [exact He'|].
  rewrite (insertMultiLineString_replaces (Example.disk "A<<<START>>>Z<<<END>>>B")
             "README.md" "X" "Y" "<<<START>>>" "<<<END>>>" "A<<<START>>>Z<<<END>>>B" 1 13
             eq_refl Hs He ltac:(discriminate) He').
  vm_compute. reflexivity.
Defined.

(** X9.  The order of the two patterns is not checked.  When the end
    pattern begins before the place where the kept prefix ends, as it does
    when it comes before the start pattern, nothing of the file is
    dropped: the call writes the whole text with the inserted string and
    a line feed put in after the kept prefix, and the region from the end
    pattern to the end of the kept prefix written a second time after
    them. *)
Theorem insertMultiLineString_patterns_out_of_order {FS : Type}
    (ReadFile : FS -> string -> result string)
    (WriteFile : FS -> string -> string -> FS * option error)
    (fs : FS) (filePath multiLineString startPattern endPattern fileContent : string)
    (startIndex endIndex : Z) :
  ReadFile fs filePath = Ok fileContent ->
  first_occurrence startPattern fileContent startIndex ->
  first_occurrence endPattern fileContent endIndex ->
  startIndex + len startPattern + 1 <= len fileContent ->
  endIndex <= startIndex + len startPattern + 1 ->
  let cut := Z.to_nat (startIndex + len startPattern + 1) in
  let twice := strings.upto (cut - Z.to_nat endIndex)
                 (strings.from (Z.to_nat endIndex) fileContent) in
  let updatedContent :=
    strings.upto (Z.to_nat endIndex) fileContent +:+ twice
    +:+ multiLineString +:+ LF
    +:+ twice +:+ strings.from cut fileContent in
  fileContent
    = strings.upto (Z.to_nat endIndex) fileContent +:+ twice +:+ strings.from cut fileContent
  /\ insertMultiLineString ReadFile WriteFile fs filePath multiLineString startPattern endPattern
     = (fst (WriteFile fs filePath updatedContent),
        Returns (snd (WriteFile fs filePath updatedContent))).
Proof.
  intros Hread Hs He Hfollow Horder. cbv zeta.
  pose proof (len_nonneg startPattern) as Hp.
  assert (He0 : 0 <= endIndex).
  { destruct He as (before & _ & _ & Hlen & _). pose proof (len_nonneg before). lia. }
  apply Index_first in Hs as [Hsi Hsn], He as [Hei Hen].
  set (cut := Z.to_nat (startIndex + len startPattern + 1)).
  set (e := Z.to_nat endIndex).
  assert (Hle : (e <= cut)%nat) by (unfold e, cut; lia).
  assert (Hfrom : strings.from e fileContent
                  = strings.upto (cut - e) (strings.from e fileContent)
                    +:+ strings.from cut fileContent).
  { rewrite <- (upto_from (strings.from e fileContent) (cut - e)) at 1.
    rewrite from_from. replace (e + (cut - e))%nat with cut by lia. reflexivity. }
  assert (Hupto : strings.upto cut fileContent
                  = strings.upto e fileContent
                    +:+ strings.upto (cut - e) (strings.from e fileContent)).
  { apply upto_split. exact Hle. }
  set (twice := strings.upto (cut - e) (strings.from e fileContent)) in *.
  split.
  - rewrite <- (upto_from fileContent e) at 1. rewrite Hfrom. reflexivity.
  - rewrite (insertMultiLineString_writes ReadFile WriteFile fs filePath multiLineString
               startPattern endPattern fileContent Hread);
      [| rewrite Hsi; exact Hsn | rewrite Hei; exact Hen | rewrite Hsi; exact Hfollow].
    rewrite Hsi, Hei. fold cut e. rewrite Hupto, Hfrom, !append_assoc. reflexivity.
Qed.

Lemma insertMultiLineString_patterns_out_of_order_witness :
  MemFS.ReadFile (Example.disk "<<<END>>>old<<<START>>>.rest") "README.md"
    = Ok "<<<END>>>old<<<START>>>.rest"
  /\ first_occurrence "<<<START>>>" "<<<END>>>old<<<START>>>.rest" 12
  /\ first_occurrence "<<<END>>>" "<<<END>>>old<<<START>>>.rest" 0
  /\ insertMultiLineString MemFS.ReadFile MemFS.WriteFile
       (Example.disk "<<<END>>>old<<<START>>>.rest") "README.md" "X"
       "<<<START>>>" "<<<END>>>"
     = (Example.disk ("<<<END>>>old<<<START>>>." +:+ "X" +:+ LF
                      +:+ "<<<END>>>old<<<START>>>." +:+ "rest"),
        Returns None).
Proof.
  assert (Hs : first_occurrence "<<<START>>>" "<<<END>>>old<<<START>>>.rest" 12).
  { apply Index_first. split; [reflexivity | discriminate]. }
  assert (He : first_occurrence "<<<END>>>" "<<<END>>>old<<<START>>>.rest" 0).
  { apply Index_first. split; [reflexivity | discriminate]. }
  split; [reflexivity|]. split; [exact Hs|]. split; [exact He|].
  rewrite (proj2 (insertMultiLineString_patterns_out_of_order MemFS.ReadFile MemFS.WriteFile
                    (Example.disk "<<<END>>>old<<<START>>>.rest") "README.md" "X"
                    "<<<START>>>" "<<<END>>>" "<<<END>>>old<<<START>>>.rest" 12 0
                    eq_refl Hs He ltac:(discriminate) ltac:(discriminate))).
  vm_compute. reflexivity.
Defined.

(** ** The entry point *)

Section GenerateDiagramProperties.

Context {FS : Type} {OutputType : Type} `{EqDecision OutputType}.
Variables Markdown Plain : OutputType.
Variable LoadGraph : FS -> string -> FS * result Graph.
Variable ReadFile : FS -> string -> result string.
Variable WriteFile : FS -> string -> string -> FS * option error.

(** X10.  [GenerateDiagram] prints its line of success exactly when it
    returns nil, and prints nothing otherwise.  An error that it returns
    always carries one of its two prefixes: the branch that hands on an
    error of [generateMermaidCode] as it is never runs. *)
Theorem GenerateDiagram_reports
    (fs : FS) (schemaPath targetPath : string) (outputType : OutputType)
    (startPattern endPattern : string) :
  let '(_, printed, result) :=
    GenerateDiagram Markdown Plain LoadGraph ReadFile WriteFile fs schemaPath targetPath
      outputType startPattern endPattern in
  (result = Returns None /\ printed = ["Mermaid file generated successfully."])
  \/ (result = Panics /\ printed = [])
  \/ (exists err : error,
        printed = []
        /\ (result = Returns (Some ("failed to load schema graph from the path "
                                    +:+ schemaPath +:+ ": " +:+ err))
            \/ result = Returns (Some ("failed to insert Mermaid code into the file: "
                                       +:+ err)))).
Proof.
  unfold GenerateDiagram.
  destruct (LoadGraph fs schemaPath) as [fs' [graph|err]].
  - rewrite generateMermaidCode_text.
    destruct (insertMultiLineString _ _ _ _ _ _ _) as [fs'' [[err|]|]].
    + right. right. exists err. split; [reflexivity | right; reflexivity].
    + left. split; reflexivity.
    + right. left. split; reflexivity.
  - right. right. exists err. split; [reflexivity | left; reflexivity].
Qed.

(** X11.  When the schema cannot be loaded, or the target file cannot be
    read, or one of the two patterns does not occur in it, the call
    returns the error with its prefix, prints nothing and writes nothing:
    the disk is as [LoadGraph] left it. *)
Theorem GenerateDiagram_failures
    (fs fs' : FS) (schemaPath targetPath : string) (outputType : OutputType)
    (startPattern endPattern : string) :
  (forall err : error,
     LoadGraph fs schemaPath = (fs', Err err) ->
     GenerateDiagram Markdown Plain LoadGraph ReadFile WriteFile fs schemaPath targetPath
       outputType startPattern endPattern
     = (fs', [], Returns (Some ("failed to load schema graph from the path " +:+ schemaPath
                                +:+ ": " +:+ err))))
  /\ (forall (graph : Graph) (err : error),
        LoadGraph fs schemaPath = (fs', Ok graph) ->
        ReadFile fs' targetPath = Err err ->
        GenerateDiagram Markdown Plain LoadGraph ReadFile WriteFile fs schemaPath targetPath
          outputType startPattern endPattern
        = (fs', [], Returns (Some ("failed to insert Mermaid code into the file: " +:+ err))))
  /\ (forall (graph : Graph) (fileContent : string),
        LoadGraph fs schemaPath = (fs', Ok graph) ->
        ReadFile fs' targetPath = Ok fileContent ->
        ~ occurs_in startPattern fileContent \/ ~ occurs_in endPattern fileContent ->
        GenerateDiagram Markdown Plain LoadGraph ReadFile WriteFile fs schemaPath targetPath
          outputType startPattern endPattern
        = (fs', [],
           Returns (Some ("failed to insert Mermaid code into the file: "
                          +:+ "starting (" +:+ startPattern +:+ ") or ending ("
                          +:+ endPattern +:+ ") string not found in the file")))).
Proof.
  split; [|split].
  - intros err Hload. unfold GenerateDiagram. rewrite Hload. reflexivity.
  - intros graph err Hload Hread. unfold GenerateDiagram. rewrite Hload.
    rewrite generateMermaidCode_text. unfold insertMultiLineString. rewrite Hread.
    reflexivity.
  - intros graph fileContent Hload Hread Hmiss. unfold GenerateDiagram. rewrite Hload.
    rewrite generateMermaidCode_text. unfold insertMultiLineString. rewrite Hread.
    assert (Hor : (strings.Index fileContent startPattern =? -1)
                  || (strings.Index fileContent endPattern =? -1) = true).
    { destruct Hmiss as [H|H]; apply Index_missing in H; rewrite H;
        [reflexivity | apply orb_true_r]. }
    rewrite Hor. reflexivity.
Qed.

(** X12.  When the schema loads, the target file is read, both patterns
    occur in it and a character follows the start pattern, the call
    writes to the target path the kept prefix, the diagram of the graph
    wrapped for the output kind, a line feed and the kept tail.  It prints its line and returns nil when the write
    succeeds, and returns the error of the write with its prefix
    otherwise. *)
Theorem GenerateDiagram_writes_diagram
    (fs fs' : FS) (schemaPath targetPath : string) (outputType : OutputType)
    (startPattern endPattern fileContent : string) (graph : Graph)
    (startIndex endIndex : Z) :
  LoadGraph fs schemaPath = (fs', Ok graph) ->
  ReadFile fs' targetPath = Ok fileContent ->
  first_occurrence startPattern fileContent startIndex ->
  first_occurrence endPattern fileContent endIndex ->
  startIndex + len startPattern + 1 <= len fileContent ->
  exists mermaidCode : string,
    generateMermaidCode graph = Ok mermaidCode
    /\ let updatedContent :=
         strings.upto (Z.to_nat (startIndex + len startPattern + 1)) fileContent
         +:+ addMermaidToType Markdown Plain mermaidCode outputType +:+ LF
         +:+ strings.from (Z.to_nat endIndex) fileContent in
       GenerateDiagram Markdown Plain LoadGraph ReadFile WriteFile fs schemaPath targetPath
         outputType startPattern endPattern
       = match snd (WriteFile fs' targetPath updatedContent) with
         | None =>
             (fst (WriteFile fs' targetPath updatedContent),
              ["Mermaid file generated successfully."], Returns None)
         | Some err =>
             (fst (WriteFile fs' targetPath updatedContent), [],
              Returns (Some ("failed to insert Mermaid code into the file: " +:+ err)))
         end.
Proof.
  intros Hload Hread Hs He Hfollow.
  exists (diagramText graph). split; [apply generateMermaidCode_text|]. cbv zeta.
  apply Index_first in Hs as [Hsi Hsn], He as [Hei Hen].
  unfold GenerateDiagram. rewrite Hload, generateMermaidCode_text.
  rewrite (insertMultiLineString_writes ReadFile WriteFile fs' targetPath _
             startPattern endPattern fileContent Hread);
    [| rewrite Hsi; exact Hsn | rewrite Hei; exact Hen | rewrite Hsi; exact Hfollow].
  rewrite Hsi, Hei.
  destruct (WriteFile fs' targetPath _) as [fs'' [err|]]; reflexivity.
Qed.

End GenerateDiagramProperties.

Lemma GenerateDiagram_failures_witness :
  load_example (Example.disk "# Schema") "./nowhere"
    = (Example.disk "# Schema", Err "stat ./nowhere: no such file or directory")
  /\ GenerateDiagram "markdown" "plain" load_example MemFS.ReadFile MemFS.WriteFile
       (Example.disk "# Schema") "./nowhere" "README.md" "markdown" "<<<START>>>" "<<<END>>>"
     = (Example.disk "# Schema", [],
        Returns (Some ("failed to load schema graph from the path ./nowhere: "
                       +:+ "stat ./nowhere: no such file or directory")))
  /\ load_example (Example.disk "# Schema") "./ent/schema"
     = (Example.disk "# Schema", Ok Example.graph)
  /\ MemFS.ReadFile (Example.disk "# Schema") "OTHER.md"
     = Err "open OTHER.md: no such file or directory"
  /\ GenerateDiagram "markdown" "plain" load_example MemFS.ReadFile MemFS.WriteFile
       (Example.disk "# Schema") "./ent/schema" "OTHER.md" "markdown" "<<<START>>>" "<<<END>>>"
     = (Example.disk "# Schema", [],
        Returns (Some ("failed to insert Mermaid code into the file: "
                       +:+ "open OTHER.md: no such file or directory")))
  /\ ~ occurs_in "<<<START>>>" "# Schema"
  /\ GenerateDiagram "markdown" "plain" load_example MemFS.ReadFile MemFS.WriteFile
       (Example.disk "# Schema") "./ent/schema" "README.md" "markdown"
       "<<<START>>>" "<<<END>>>"
     = (Example.disk "# Schema", [],
        Returns (Some ("failed to insert Mermaid code into the file: "
                       +:+ "starting (<<<START>>>) or ending (<<<END>>>) "
                       +:+ "string not found in the file"))).
Proof.
  assert (Hmiss : ~ occurs_in "<<<START>>>" "# Schema") by (apply Index_missing; reflexivity).
  destruct (GenerateDiagram_failures "markdown" "plain" load_example MemFS.ReadFile
              MemFS.WriteFile (Example.disk "# Schema") (Example.disk "# Schema")
              "./nowhere" "README.md" "markdown" "<<<START>>>" "<<<END>>>") as (H1 & _ & _).
  destruct (GenerateDiagram_failures "markdown" "plain" load_example MemFS.ReadFile
              MemFS.WriteFile (Example.disk "# Schema") (Example.disk "# Schema")
              "./ent/schema" "OTHER.md" "markdown" "<<<START>>>" "<<<END>>>") as (_ & H2 & _).
  destruct (GenerateDiagram_failures "markdown" "plain" load_example MemFS.ReadFile
              MemFS.WriteFile (Example.disk "# Schema") (Example.disk "# Schema")
              "./ent/schema" "README.md" "markdown" "<<<START>>>" "<<<END>>>") as (_ & _ & H3).
  split; [reflexivity|]. split; [apply H1; reflexivity|].
  split; [reflexivity|]. split; [reflexivity|].
  split; [apply (H2 Example.graph); reflexivity|].
  split; [exact Hmiss|].
  apply (H3 Example.graph "# Schema"); [reflexivity | reflexivity | left; exact Hmiss].
Defined.

Lemma GenerateDiagram_writes_diagram_witness :
  first_occurrence "<<<START>>>" "A<<<START>>>Z<<<END>>>B" 1
  /\ first_occurrence "<<<END>>>" "A<<<START>>>Z<<<END>>>B" 13
  /\ exists mermaidCode : string,
       generateMermaidCode Example.graph = Ok mermaidCode
       /\ GenerateDiagram "markdown" "plain" load_example MemFS.ReadFile MemFS.WriteFile
            (Example.disk "A<<<START>>>Z<<<END>>>B") "./ent/schema" "README.md" "markdown"
            "<<<START>>>" "<<<END>>>"
          = (Example.disk ("A<<<START>>>Z" +:+ "```mermaid" +:+ LF +:+ mermaidCode +:+ LF
                           +:+ "```" +:+ LF +:+ "<<<END>>>B"),
             ["Mermaid file generated successfully."], Returns None).
Proof.
  assert (Hs : first_occurrence "<<<START>>>" "A<<<START>>>Z<<<END>>>B" 1).
  { apply Index_first. split; [reflexivity | discriminate]. }
  assert (He : first_occurrence "<<<END>>>" "A<<<START>>>Z<<<END>>>B" 13).
  { apply Index_first. split; [reflexivity | discriminate]. }
  split; [exact Hs|]. split; [exact He|].
  destruct (GenerateDiagram_writes_diagram "markdown" "plain" load_example MemFS.ReadFile
              MemFS.WriteFile (Example.disk "A<<<START>>>Z<<<END>>>B")
              (Example.disk "A<<<START>>>Z<<<END>>>B") "./ent/schema" "README.md" "markdown"
              "<<<START>>>" "<<<END>>>" "A<<<START>>>Z<<<END>>>B" Example.graph 1 13
              eq_refl eq_refl Hs He ltac:(discriminate)) as (mermaidCode & Hcode & Hrun).
  exists mermaidCode. split; [exact Hcode|].
  rewrite Hrun. injection Hcode as <-. vm_compute. reflexivity.
Defined.

(** ** The lines of the diagram *)

Lemma HasPrefix_space (s : string) : strings.HasPrefix (String " " s) " " = true.
Proof. destruct s; reflexivity. Qed.

(** X13.  The text of [generateMermaidCode] is made of pieces that each end
    with a line feed; the first is the heading, and every other piece is
    empty or begins with a space.  When the names of the graph are
    identifiers of the diagram grammar no piece holds a line feed of its
    own, so the pieces are the lines of the text. *)
Theorem generateMermaidCode_lines (graph : Graph) :
  exists lines : list string,
    generateMermaidCode graph = Ok (unlines ("erDiagram" :: lines))
    /\ (forall l : string, In l lines -> l = "" \/ strings.HasPrefix l " " = true)
    /\ (plain_graph graph = true -> forallb one_line ("erDiagram" :: lines) = true).
Proof.
  exists (flat_map nodeLines (Graph_Nodes graph)
          ++ flat_map relationshipLines (Graph_Nodes graph)).
  split; [|split].
  - rewrite generateMermaidCode_text, diagramText_lines. reflexivity.
  - intros l H. apply in_app_iff in H as [H|H]; apply in_flat_map in H as (n & _ & H).
    + unfold nodeLines, entityLines, joinTablesLines, idLines in H.
      destruct H as [<-|H]; [right; apply HasPrefix_space|].
      repeat (apply in_app_iff in H as [H|H]).
      * destruct (Type_HasOneFieldID n); [|destruct H].
        destruct (Type_ID n); [|destruct H]. destruct H as [<-|[]]. right. apply HasPrefix_space.
      * apply in_map_iff in H as (f & <- & _). right. apply HasPrefix_space.
      * apply in_map_iff in H as (fk & <- & _). right. apply HasPrefix_space.
      * destruct H as [<-|[<-|[]]]; [right; apply HasPrefix_space | left; reflexivity].
      * apply in_flat_map in H as (e & _ & H). unfold joinTableLines in H.
        destruct H as [<-|H]; [right; apply HasPrefix_space|].
        apply in_app_iff in H as [H|H].
        -- apply in_map_iff in H as (c & <- & _). right. apply HasPrefix_space.
        -- destruct H as [<-|[<-|[]]]; [right; apply HasPrefix_space | left; reflexivity].
    + unfold relationshipLines in H. apply in_map_iff in H as (e & <- & _).
      right. apply HasPrefix_space.
  - apply diagramLines_one_line.
Qed.

Lemma generateMermaidCode_lines_witness :
  plain_graph Example.graph = true
  /\ exists lines : list string,
       generateMermaidCode Example.graph = Ok (unlines ("erDiagram" :: lines))
       /\ forallb one_line ("erDiagram" :: lines) = true.
Proof.
  split; [reflexivity|].
  destruct (generateMermaidCode_lines Example.graph) as (lines & Htext & _ & Hone).
  exists lines. split; [exact Htext | apply Hone; reflexivity].
Defined.
